(** * BankAccount: a verification development for [bank_account.py]

    The program keeps, per account, an owner, a balance and a list of
    transactions.  Amounts and balances are Python [float]s, that is
    IEEE-754 binary64 numbers; they are modelled by Rocq's primitive
    [float], whose operations are specified by [SpecFloat] at precision
    53 and maximal exponent 1024.  The amounts a method receives are
    floats, as its annotations say and as [main] passes them
    ([float(input(...))], which also yields [inf] and [nan]).

    Python exceptions do not roll the object back, so a method is a
    function from the object to an outcome that carries the object as the
    call left it, the lines printed, and either the exception raised or
    the value returned.  A method that creates a [Transaction] reads the
    clock once; the reading is the argument [now]. *)

From Stdlib Require Import String ZArith Lia Bool List.
From Stdlib Require Import Floats.
Import ListNotations.

Set Warnings "-inexact-float".

Local Open Scope string_scope.
Local Open Scope list_scope.
Local Open Scope float_scope.

(** ** Printed text

    A printed line is kept as the pieces of its f-string: literal text,
    a float under [:.2f], a date under [strftime]. *)

Definition datetime : Type := Z.

Inductive fragment : Type :=
| Lit (s : string)
| Fmt2f (x : float)
| Strftime (d : datetime) (fmt : string).

Definition line : Type := list fragment.

(** ** Exceptions, outcomes and the method monad *)

Inductive exn : Type :=
| ValueError (msg : string)
| AttributeError (msg : string).

Record outcome (S A : Type) : Type := mkOutcome {
  final : S;
  printed : list line;
  result : exn + A
}.
Arguments mkOutcome {S A}.
Arguments final {S A}.
Arguments printed {S A}.
Arguments result {S A}.

Definition M (S A : Type) : Type := S -> outcome S A.

Definition ret {S A} (a : A) : M S A :=
  fun s => mkOutcome s [] (inr a).

Definition raise {S A} (e : exn) : M S A :=
  fun s => mkOutcome s [] (inl e).

Definition bind {S A B} (m : M S A) (k : A -> M S B) : M S B :=
  fun s =>
    let o := m s in
    match result o with
    | inl e => mkOutcome (final o) (printed o) (inl e)
    | inr a =>
        let o' := k a (final o) in
        mkOutcome (final o') (printed o ++ printed o') (result o')
    end.

Definition get {S} : M S S := fun s => mkOutcome s [] (inr s).
Definition modify {S} (f : S -> S) : M S unit := fun s => mkOutcome (f s) [] (inr tt).
Definition print {S} (l : line) : M S unit := fun s => mkOutcome s [l] (inr tt).

Notation "x <- m ;; k" := (bind m (fun x => k))
  (at level 61, m at next level, right associativity).
Notation "m ;;; k" := (bind m (fun _ => k))
  (at level 61, right associativity).

(** [zoom] runs a method of the base class on the base-class part of a
    subclass object ([super()] and inherited methods). *)
Definition zoom {S T A} (getter : T -> S) (setter : S -> T -> T) (m : M S A) : M T A :=
  fun t =>
    let o := m (getter t) in
    mkOutcome (setter (final o) t) (printed o) (result o).

(** [for x in xs: body x]. *)
Fixpoint for_each {S X} (xs : list X) (body : X -> M S unit) : M S unit :=
  match xs with
  | [] => ret tt
  | x :: rest => body x ;;; for_each rest body
  end.

(** ** class Transaction *)

Record Transaction : Type := mkTransaction {
  amount : float;
  transaction_type : string;
  date : datetime
}.

(** [Transaction.__init__]; [now] is what [datetime.now()] returns. *)
Definition Transaction_init (now : datetime) (amount : float) (transaction_type : string)
  : Transaction :=
  {| amount := amount; transaction_type := transaction_type; date := now |}.

(** [Transaction.__str__]. *)
Definition Transaction_str (self : Transaction) : line :=
  [Strftime (date self) "%Y-%m-%d %H:%M:%S"; Lit " - "; Lit (transaction_type self);
   Lit ": "; Fmt2f (amount self)].

(** ** class BankAccount *)

Record BankAccount : Type := mkBankAccount {
  owner : string;
  balance : float;
  transactions : list Transaction
}.

Definition BankAccount_init (owner : string) (balance : float) : BankAccount :=
  {| owner := owner; balance := balance; transactions := [] |}.

Definition set_balance (b : float) (self : BankAccount) : BankAccount :=
  {| owner := owner self; balance := b; transactions := transactions self |}.

Definition get_balance : M BankAccount float :=
  self <- get ;; ret (balance self).

Definition add_transaction (transaction : Transaction) : M BankAccount unit :=
  modify (fun self =>
    {| owner := owner self; balance := balance self;
       transactions := transactions self ++ [transaction] |}).

Definition get_transaction_history : M BankAccount unit :=
  self <- get ;;
  (match transactions self with
   | [] => print [Lit "No transactions found."]
   | _ :: _ => ret tt
   end) ;;;
  for_each (transactions self) (fun transaction => print (Transaction_str transaction)).

(** ** class SavingsAccount(BankAccount) *)

Record SavingsAccount : Type := mkSavingsAccount {
  savings_base : BankAccount;
  interest_rate : float
}.

Definition SavingsAccount_init (owner : string) (balance interest_rate : float)
  : SavingsAccount :=
  {| savings_base := BankAccount_init owner balance; interest_rate := interest_rate |}.

Definition savings_set_base (b : BankAccount) (self : SavingsAccount) : SavingsAccount :=
  {| savings_base := b; interest_rate := interest_rate self |}.

Definition savings_super {A} (m : M BankAccount A) : M SavingsAccount A :=
  zoom savings_base savings_set_base m.

Module Savings.

Definition deposit (now : datetime) (amount : float) : M SavingsAccount unit :=
  if amount <=? 0 then raise (ValueError "Deposit amount must be positive.")
  else
    modify (fun self =>
      savings_set_base (set_balance (balance (savings_base self) + amount)
                                    (savings_base self)) self) ;;;
    savings_super (add_transaction (Transaction_init now amount "Deposit")) ;;;
    self <- get ;;
    print [Lit "Deposited "; Fmt2f amount;
           Lit " into Savings Account. New balance: ";
           Fmt2f (balance (savings_base self))].

Definition withdraw (now : datetime) (amount : float) : M SavingsAccount unit :=
  if amount <=? 0 then raise (ValueError "Withdrawal amount must be positive.")
  else
    self <- get ;;
    if balance (savings_base self) <? amount then raise (ValueError "Insufficient funds.")
    else
      modify (fun self =>
        savings_set_base (set_balance (balance (savings_base self) - amount)
                                      (savings_base self)) self) ;;;
      savings_super (add_transaction (Transaction_init now amount "Withdrawal")) ;;;
      self <- get ;;
      print [Lit "Withdrew "; Fmt2f amount;
             Lit " from Savings Account. New balance: ";
             Fmt2f (balance (savings_base self))].

Definition apply_interest (now : datetime) : M SavingsAccount unit :=
  self <- get ;;
  let interest := balance (savings_base self) * interest_rate self in
  deposit now interest ;;;
  self <- get ;;
  print [Lit "Applied interest: "; Fmt2f interest;
         Lit ". New balance: "; Fmt2f (balance (savings_base self))].

End Savings.

(** ** class CheckingAccount(BankAccount) *)

Record CheckingAccount : Type := mkCheckingAccount {
  checking_base : BankAccount;
  overdraft_limit : float
}.

Definition CheckingAccount_init (owner : string) (balance overdraft_limit : float)
  : CheckingAccount :=
  {| checking_base := BankAccount_init owner balance; overdraft_limit := overdraft_limit |}.

Definition checking_set_base (b : BankAccount) (self : CheckingAccount) : CheckingAccount :=
  {| checking_base := b; overdraft_limit := overdraft_limit self |}.

Definition checking_super {A} (m : M BankAccount A) : M CheckingAccount A :=
  zoom checking_base checking_set_base m.

Module Checking.

Definition deposit (now : datetime) (amount : float) : M CheckingAccount unit :=
  if amount <=? 0 then raise (ValueError "Deposit amount must be positive.")
  else
    modify (fun self =>
      checking_set_base (set_balance (balance (checking_base self) + amount)
                                     (checking_base self)) self) ;;;
    checking_super (add_transaction (Transaction_init now amount "Deposit")) ;;;
    self <- get ;;
    print [Lit "Deposited "; Fmt2f amount;
           Lit " into Checking Account. New balance: ";
           Fmt2f (balance (checking_base self))].

Definition withdraw (now : datetime) (amount : float) : M CheckingAccount unit :=
  if amount <=? 0 then raise (ValueError "Withdrawal amount must be positive.")
  else
    self <- get ;;
    if balance (checking_base self) - amount <? overdraft_limit self
    then raise (ValueError "Overdraft limit reached.")
    else
      modify (fun self =>
        checking_set_base (set_balance (balance (checking_base self) - amount)
                                       (checking_base self)) self) ;;;
      checking_super (add_transaction (Transaction_init now amount "Withdrawal")) ;;;
      self <- get ;;
      print [Lit "Withdrew "; Fmt2f amount;
             Lit " from Checking Account. New balance: ";
             Fmt2f (balance (checking_base self))].

End Checking.

(** ** Accounts of either class

    [accounts[owner].deposit(amount)] in [main] dispatches on the class
    of the object; a [CheckingAccount] has no [apply_interest], and
    calling it raises [AttributeError]. *)

Inductive Account : Type :=
| SavingsObj (s : SavingsAccount)
| CheckingObj (c : CheckingAccount).

Definition base (acct : Account) : BankAccount :=
  match acct with
  | SavingsObj s => savings_base s
  | CheckingObj c => checking_base c
  end.

Definition map_final {S T A} (f : S -> T) (o : outcome S A) : outcome T A :=
  mkOutcome (f (final o)) (printed o) (result o).

Definition dispatch {A} (ms : M SavingsAccount A) (mc : M CheckingAccount A) : M Account A :=
  fun acct =>
    match acct with
    | SavingsObj s => map_final SavingsObj (ms s)
    | CheckingObj c => map_final CheckingObj (mc c)
    end.

Definition deposit (now : datetime) (amount : float) : M Account unit :=
  dispatch (Savings.deposit now amount) (Checking.deposit now amount).

Definition withdraw (now : datetime) (amount : float) : M Account unit :=
  dispatch (Savings.withdraw now amount) (Checking.withdraw now amount).

Definition apply_interest (now : datetime) : M Account unit :=
  dispatch (Savings.apply_interest now)
    (raise (AttributeError "'CheckingAccount' object has no attribute 'apply_interest'")).

(** ** The kinds of failure

    Every failure of the program is a [ValueError]; the kinds are told
    apart by the message. *)

Inductive ErrorKind : Type :=
| InvalidAmount
| InsufficientFunds
| OverdraftExceeded.

Definition error_kind (e : exn) : option ErrorKind :=
  match e with
  | ValueError msg =>
      if (msg =? "Deposit amount must be positive.")%string then Some InvalidAmount
      else if (msg =? "Withdrawal amount must be positive.")%string then Some InvalidAmount
      else if (msg =? "Insufficient funds.")%string then Some InsufficientFunds
      else if (msg =? "Overdraft limit reached.")%string then Some OverdraftExceeded
      else None
  | AttributeError _ => None
  end.

Definition fails_with {S A} (k : ErrorKind) (o : outcome S A) : Prop :=
  match result o with
  | inl e => error_kind e = Some k
  | inr _ => False
  end.

Definition succeeds {S A} (o : outcome S A) : Prop :=
  match result o with
  | inl _ => False
  | inr _ => True
  end.

Definition succeeded {S A} (o : outcome S A) : bool :=
  match result o with
  | inl _ => false
  | inr _ => true
  end.

(** ** Sequences of calls *)

Inductive call : Type :=
| Deposit (amount : float)
| Withdraw (amount : float)
| ApplyInterest
| GetBalance
| GetTransactionHistory.

Definition forget {S A} (o : outcome S A) : outcome S unit :=
  mkOutcome (final o) (printed o)
    match result o with
    | inl e => inl e
    | inr _ => inr tt
    end.

(** One call, issued when the clock reads [now]. *)
Definition perform (c : call) (now : datetime) : M Account unit :=
  match c with
  | Deposit a => deposit now a
  | Withdraw a => withdraw now a
  | ApplyInterest => apply_interest now
  | GetBalance =>
      fun acct => forget (dispatch (savings_super get_balance) (checking_super get_balance) acct)
  | GetTransactionHistory =>
      dispatch (savings_super get_transaction_history)
               (checking_super get_transaction_history)
  end.

(** The caller goes on after a failed call: the object is as the call left it. *)
Fixpoint run (calls : list (call * datetime)) (acct : Account) : Account :=
  match calls with
  | [] => acct
  | (c, now) :: rest => run rest (final (perform c now acct))
  end.

Definition mutating (c : call) : bool :=
  match c with
  | Deposit _ | Withdraw _ | ApplyInterest => true
  | GetBalance | GetTransactionHistory => false
  end.

(** The transaction a successful mutating call records, given the object
    it was issued on. *)
Definition record_of (c : call) (now : datetime) (acct : Account) : list Transaction :=
  match c with
  | Deposit a => [mkTransaction a "Deposit" now]
  | Withdraw a => [mkTransaction a "Withdrawal" now]
  | ApplyInterest =>
      match acct with
      | SavingsObj s =>
          [mkTransaction (balance (savings_base s) * interest_rate s) "Deposit" now]
      | CheckingObj _ => []
      end
  | GetBalance | GetTransactionHistory => []
  end.

(** The records of the successful mutating calls of a sequence, in the
    order the calls were made, and their number. *)
Fixpoint records (calls : list (call * datetime)) (acct : Account) : list Transaction :=
  match calls with
  | [] => []
  | (c, now) :: rest =>
      let o := perform c now acct in
      (if mutating c && succeeded o then record_of c now acct else [])
      ++ records rest (final o)
  end.

Fixpoint successes (calls : list (call * datetime)) (acct : Account) : nat :=
  match calls with
  | [] => O
  | (c, now) :: rest =>
      let o := perform c now acct in
      ((if mutating c && succeeded o then 1 else 0) + successes rest (final o))%nat
  end.

(** ** The floors

    [below_floor] is the comparison the withdrawal guards protect:
    [balance < 0] on a savings account, [balance < overdraft_limit] on a
    checking account. *)

Definition below_floor (acct : Account) : bool :=
  match acct with
  | SavingsObj s => balance (savings_base s) <? 0
  | CheckingObj c => balance (checking_base c) <? overdraft_limit c
  end.

(** The fields no method assigns: the owner and the parameter of the class. *)
Definition same_frame (before after : Account) : Prop :=
  owner (base after) = owner (base before) /\
  match before, after with
  | SavingsObj s, SavingsObj s' => interest_rate s' = interest_rate s
  | CheckingObj c, CheckingObj c' => overdraft_limit c' = overdraft_limit c
  | _, _ => False
  end.

(** The two accounts of the specification's scenarios. *)
Definition alice : SavingsAccount := SavingsAccount_init "Alice" 100 0.02.
Definition bob : CheckingAccount := CheckingAccount_init "Bob" 0 (-500).

(** ** Binary64 values

    A finite binary64 number [(-1)^s * m * 2^e] has [e >= emin = -1074],
    so it is an integer multiple of [2^emin]; [SFval] is that integer.
    The infinities sit at [+-2^(emax - emin)], beyond every finite
    number.  [SFval] is only used on numbers that are not NaN. *)

Definition scaled (m : positive) (e : Z) : Z := (Zpos m * 2 ^ (e - emin))%Z.

Definition top : Z := (2 ^ (emax - emin))%Z.

Definition SFval (x : spec_float) : Z :=
  match x with
  | S754_zero _ => 0%Z
  | S754_infinity s => if s then (- top)%Z else top
  | S754_nan => 0%Z
  | S754_finite s m e => cond_Zopp s (scaled m e)
  end.

Definition is_SFnan (x : spec_float) : bool :=
  match x with
  | S754_nan => true
  | _ => false
  end.

(** ** Replaying a history

    What a record does to a balance: a Deposit adds its amount, any
    other record (a Withdrawal) subtracts it. *)

Definition apply_record (b : float) (t : Transaction) : float :=
  if (transaction_type t =? "Deposit")%string then b + amount t else b - amount t.

Definition replay (b : float) (ts : list Transaction) : float :=
  fold_left apply_record ts b.

(** A record as the methods write them: kind Deposit or Withdrawal, and
    an amount that passed the [amount <= 0] guard. *)
Definition well_formed_record (t : Transaction) : Prop :=
  (transaction_type t = "Deposit" \/ transaction_type t = "Withdrawal") /\
  (amount t <=? 0) = false.

(** ** [main]: the menu loop

    [main] reads lines from standard input and writes to standard
    output; its local variable [accounts] is a dict from owner names to
    account objects.  The builtins it calls are parameters: [float] on a
    string ([None] where Python raises ValueError, with the message it
    raises), and the clock behind [datetime.now()], indexed by the number
    of readings made so far. *)

Record Builtins : Type := mkBuiltins {
  py_float : string -> option float;
  py_float_error : string -> string;
  py_now : nat -> datetime
}.

Inductive output : Type :=
| Printed (l : line)
| Prompt (s : string).

Definition dict : Type := string -> option Account.

Definition dict_empty : dict := fun _ => None.

Definition dict_set (k : string) (v : Account) (d : dict) : dict :=
  fun k' => if (k' =? k)%string then Some v else d k'.

Record World : Type := mkWorld {
  stdin : list string;
  stdout : list output;
  accounts : dict;
  clock_reads : nat
}.

(** What ends a command early: an exception nobody catches, or the
    EOFError of [input] at the end of standard input. *)
Inductive stop : Type :=
| Uncaught (e : exn)
| EOFError.

Definition IO (A : Type) : Type := World -> World * (stop + A).

Definition io_ret {A} (a : A) : IO A := fun w => (w, inr a).

Definition io_raise {A} (e : exn) : IO A := fun w => (w, inl (Uncaught e)).

Definition io_bind {A B} (m : IO A) (k : A -> IO B) : IO B :=
  fun w =>
    match m w with
    | (w', inl s) => (w', inl s)
    | (w', inr a) => k a w'
    end.

Notation "x <== m ;; k" := (io_bind m (fun x => k))
  (at level 61, m at next level, right associativity).
Notation "m >>> k" := (io_bind m (fun _ => k))
  (at level 61, right associativity).

Definition io_print (l : line) : IO unit :=
  fun w => (mkWorld (stdin w) (stdout w ++ [Printed l]) (accounts w) (clock_reads w), inr tt).

(** [input(prompt)]: the prompt is written, then a line is read. *)
Definition input (prompt : string) : IO string :=
  fun w =>
    let out := stdout w ++ [Prompt prompt] in
    match stdin w with
    | [] => (mkWorld [] out (accounts w) (clock_reads w), inl EOFError)
    | l :: rest => (mkWorld rest out (accounts w) (clock_reads w), inr l)
    end.

(** [float(input(prompt))]. *)
Definition float_input (env : Builtins) (prompt : string) : IO float :=
  s <== input prompt ;;
  match py_float env s with
  | Some x => io_ret x
  | None => io_raise (ValueError (py_float_error env s))
  end.

(** [accounts[owner] = account]. *)
Definition set_account (owner : string) (account : Account) : IO unit :=
  fun w =>
    (mkWorld (stdin w) (stdout w) (dict_set owner account (accounts w)) (clock_reads w),
     inr tt).

(** [if owner in accounts: found(accounts[owner]) else: print(missing)]. *)
Definition with_account (owner : string) (found : Account -> IO unit) (missing : line)
  : IO unit :=
  fun w =>
    match accounts w owner with
    | Some acct => found acct w
    | None => io_print missing w
    end.

(** A method call on the object stored under [owner]: the object is
    changed in place, what the method prints goes to standard output, the
    clock is read once where a Transaction is created, and an exception
    is not caught. *)
Definition call_method (env : Builtins) (owner : string) (acct : Account) (c : call)
  : IO unit :=
  fun w =>
    let o := perform c (py_now env (clock_reads w)) acct in
    (mkWorld (stdin w) (stdout w ++ map Printed (printed o))
       (dict_set owner (final o) (accounts w))
       (clock_reads w + (if mutating c && succeeded o then 1 else 0)),
     match result o with
     | inl e => inl (Uncaught e)
     | inr _ => inr tt
     end).

(** [print(f"Balance: {accounts[owner].get_balance():.2f}")]. *)
Definition print_balance (owner : string) (acct : Account) : IO unit :=
  fun w =>
    let o := dispatch (savings_super get_balance) (checking_super get_balance) acct in
    let w' := mkWorld (stdin w) (stdout w ++ map Printed (printed o))
                (dict_set owner (final o) (accounts w)) (clock_reads w) in
    match result o with
    | inl e => (w', inl (Uncaught e))
    | inr b => io_print [Lit "Balance: "; Fmt2f b] w'
    end.

(** [print("\nMenu:")]: the text starts with a line feed. *)
Definition line_feed : Ascii.ascii :=
  Ascii.Ascii false true false true false false false false.

Definition print_menu : IO unit :=
  io_print [Lit (String line_feed "Menu:")] >>>
  io_print [Lit "1. Create Savings Account"] >>>
  io_print [Lit "2. Create Checking Account"] >>>
  io_print [Lit "3. Deposit"] >>>
  io_print [Lit "4. Withdraw"] >>>
  io_print [Lit "5. View Balance"] >>>
  io_print [Lit "6. View Transaction History"] >>>
  io_print [Lit "7. Apply Interest (Savings Account only)"] >>>
  io_print [Lit "8. Exit"].

(** What follows the reading of [choice]; the result tells whether the
    loop is left ([break]). *)
Definition main_choice (env : Builtins) (choice : string) : IO bool :=
  if (choice =? "1")%string then
    owner <== input "Enter the account owner's name: " ;;
    balance <== float_input env "Enter the initial balance: " ;;
    set_account owner (SavingsObj (SavingsAccount_init owner balance 0.02)) >>>
    io_print [Lit "Savings account created for "; Lit owner; Lit "."] >>>
    io_ret false
  else if (choice =? "2")%string then
    owner <== input "Enter the account owner's name: " ;;
    balance <== float_input env "Enter the initial balance: " ;;
    set_account owner (CheckingObj (CheckingAccount_init owner balance (-500))) >>>
    io_print [Lit "Checking account created for "; Lit owner; Lit "."] >>>
    io_ret false
  else if (choice =? "3")%string then
    owner <== input "Enter the account owner's name: " ;;
    with_account owner
      (fun acct =>
         amount <== float_input env "Enter the amount to deposit: " ;;
         call_method env owner acct (Deposit amount))
      [Lit "Account not found."] >>>
    io_ret false
  else if (choice =? "4")%string then
    owner <== input "Enter the account owner's name: " ;;
    with_account owner
      (fun acct =>
         amount <== float_input env "Enter the amount to withdraw: " ;;
         call_method env owner acct (Withdraw amount))
      [Lit "Account not found."] >>>
    io_ret false
  else if (choice =? "5")%string then
    owner <== input "Enter the account owner's name: " ;;
    with_account owner (print_balance owner) [Lit "Account not found."] >>>
    io_ret false
  else if (choice =? "6")%string then
    owner <== input "Enter the account owner's name: " ;;
    with_account owner
      (fun acct => call_method env owner acct GetTransactionHistory)
      [Lit "Account not found."] >>>
    io_ret false
  else if (choice =? "7")%string then
    owner <== input "Enter the account owner's name: " ;;
    with_account owner
      (fun acct =>
         match acct with
         | SavingsObj _ => call_method env owner acct ApplyInterest
         | CheckingObj _ => io_print [Lit "Savings account not found."]
         end)
      [Lit "Savings account not found."] >>>
    io_ret false
  else if (choice =? "8")%string then
    io_print [Lit "Exiting the Advanced Bank Account System."] >>>
    io_ret true
  else
    io_print [Lit "Invalid option. Please try again."] >>>
    io_ret false.

(** One turn of [while True]. *)
Definition main_body (env : Builtins) : IO bool :=
  print_menu >>>
  choice <== input "Select an option: " ;;
  main_choice env choice.

(** How a run of [main] ends. *)
Inductive ending : Type :=
| Exited
| Stopped (s : stop)
| OutOfFuel.

Fixpoint main_loop (env : Builtins) (fuel : nat) (w : World) : World * ending :=
  match fuel with
  | O => (w, OutOfFuel)
  | S fuel' =>
      match main_body env w with
      | (w', inl s) => (w', Stopped s)
      | (w', inr true) => (w', Exited)
      | (w', inr false) => main_loop env fuel' w'
      end
  end.

(** [main()], on the lines of standard input.  Every turn reads at least
    one line, so one more turn than there are lines is enough. *)
Definition main (env : Builtins) (lines : list string) : World * ending :=
  match io_print [Lit "Welcome to the Advanced Bank Account System"]
          (mkWorld lines [] dict_empty 0) with
  | (w, inl s) => (w, Stopped s)
  | (w, inr _) => main_loop env (S (length lines)) w
  end.

(** ** Properties of commands *)

(** Every account of the dict satisfies [P] under its key. *)
Definition all_accounts (P : string -> Account -> Prop) (w : World) : Prop :=
  forall k acct, accounts w k = Some acct -> P k acct.

(** Sample builtins for the examples: [float] knows three numerals. *)
Definition sample_env : Builtins :=
  mkBuiltins
    (fun s => if (s =? "100")%string then Some 100
              else if (s =? "50")%string then Some 50
              else if (s =? "-5")%string then Some (-5)
              else None)
    (fun s => s)
    (fun n => Z.of_nat n).

(** [wp m Q w]: the world and the result [m] ends in from [w] satisfy [Q]. *)
Definition wp {A} (m : IO A) (Q : World -> stop + A -> Prop) (w : World) : Prop :=
  Q (fst (m w)) (snd (m w)).

(** Worlds that differ at most in what was written to standard output. *)
Definition same_state (w w' : World) : Prop :=
  stdin w' = stdin w /\ accounts w' = accounts w /\ clock_reads w' = clock_reads w.

(** A world for the examples: Alice's savings account is in the dict. *)
Definition sample_world (lines : list string) : World :=
  mkWorld lines [] (dict_set "Alice" (SavingsObj alice) dict_empty) 0.

(** * Binary64 arithmetic

    What the claims need of IEEE-754 arithmetic, proved from [SpecFloat]:
    [SFcompare] orders valid numbers by value, and an addition or a
    subtraction, rounded to nearest, stays on the same side of every
    representable number as the exact result. *)

Module Binary64.

Local Open Scope Z_scope.

Lemma digits2_pos_bounds (m : positive) :
  2 ^ (Zpos (digits2_pos m) - 1) <= Zpos m < 2 ^ Zpos (digits2_pos m).
Proof.
  induction m as [m IH | m IH |]; cbn [digits2_pos].
  - rewrite Pos2Z.inj_succ.
    replace (Z.succ (Zpos (digits2_pos m)) - 1) with (Z.succ (Zpos (digits2_pos m) - 1)) by lia.
    rewrite !Z.pow_succ_r by lia. lia.
  - rewrite Pos2Z.inj_succ.
    replace (Z.succ (Zpos (digits2_pos m)) - 1) with (Z.succ (Zpos (digits2_pos m) - 1)) by lia.
    rewrite !Z.pow_succ_r by lia. lia.
  - cbn. lia.
Qed.

Lemma valid_finite_inv (s : bool) (m : positive) (e : Z) :
  valid_binary (S754_finite s m e) = true ->
  -1074 <= e <= 971 /\ Zpos (digits2_pos m) <= 53 /\
  (-1074 < e -> Zpos (digits2_pos m) = 53).
Proof.
  cbn [SpecFloat.valid_binary]. unfold bounded, canonical_mantissa, fexp, SpecFloat.emin, emax, prec.
  intros H. apply andb_prop in H. destruct H as [H1 H2].
  apply Z.eqb_eq in H1. apply Z.leb_le in H2. lia.
Qed.

Lemma scaled_pos m e : -1074 <= e -> 0 < scaled m e.
Proof.
  intros He. unfold scaled, SpecFloat.emin, emax, prec.
  apply Z.mul_pos_pos; [lia | apply Z.pow_pos_nonneg; lia].
Qed.

Lemma pow2_split (a b : Z) : 0 <= a -> 0 <= b -> 2 ^ (a + b) = 2 ^ a * 2 ^ b.
Proof. intros. apply Z.pow_add_r; lia. Qed.

Lemma pow2_pos (a : Z) : 0 <= a -> 0 < 2 ^ a.
Proof. intros. apply Z.pow_pos_nonneg; lia. Qed.

Lemma scaled_lt_top s m e :
  valid_binary (S754_finite s m e) = true -> scaled m e < top.
Proof.
  intros Hv. apply valid_finite_inv in Hv. destruct Hv as (He & Hd & _).
  pose proof (digits2_pos_bounds m) as [_ Hm].
  unfold scaled, top, SpecFloat.emin, emax, prec.
  replace (1024 - (3 - 1024 - 53)) with (53 + (971 + 1074)) by lia.
  replace (e - (3 - 1024 - 53)) with (e + 1074) by lia.
  assert (Zpos m < 2 ^ 53).
  { eapply Z.lt_le_trans; [exact Hm|]. apply Z.pow_le_mono_r; lia. }
  assert (2 ^ (e + 1074) <= 2 ^ (971 + 1074)) by (apply Z.pow_le_mono_r; lia).
  rewrite (pow2_split 53) by lia.
  assert (0 < 2 ^ (e + 1074)) by (apply pow2_pos; lia). nia.
Qed.

(** On canonical mantissas the exponent decides the order. *)
Lemma scaled_lt_exp m1 e1 m2 e2 s1 s2 :
  valid_binary (S754_finite s1 m1 e1) = true ->
  valid_binary (S754_finite s2 m2 e2) = true ->
  e1 < e2 -> scaled m1 e1 < scaled m2 e2.
Proof.
  intros H1 H2 Hlt.
  apply valid_finite_inv in H1. apply valid_finite_inv in H2.
  destruct H1 as (He1 & Hd1 & _). destruct H2 as (He2 & _ & Hd2).
  assert (Hd2' : Zpos (digits2_pos m2) = 53) by (apply Hd2; lia). clear Hd2.
  rename Hd2' into Hd2.
  pose proof (digits2_pos_bounds m1) as [_ Hm1].
  pose proof (digits2_pos_bounds m2) as [Hm2 _].
  rewrite Hd2 in Hm2.
  assert (Zpos m1 < 2 ^ 53).
  { eapply Z.lt_le_trans; [exact Hm1|]. apply Z.pow_le_mono_r; lia. }
  unfold scaled, SpecFloat.emin, emax, prec.
  replace (e2 - (3 - 1024 - 53)) with ((e1 + 1074) + (e2 - e1)) by lia.
  replace (e1 - (3 - 1024 - 53)) with (e1 + 1074) by lia.
  rewrite (pow2_split (e1 + 1074) (e2 - e1)) by lia.
  assert (2 ^ 1 <= 2 ^ (e2 - e1)) by (apply Z.pow_le_mono_r; lia).
  assert (0 < 2 ^ (e1 + 1074)) by (apply pow2_pos; lia).
  change (2 ^ 1) with 2 in H0. change (2 ^ (53 - 1)) with (2 ^ 52) in Hm2.
  change (2 ^ 53) with (2 ^ 52 * 2) in H.
  generalize dependent (2 ^ 52). generalize dependent (2 ^ (e2 - e1)).
  generalize dependent (2 ^ (e1 + 1074)). intros P HP Q HQ K HK1 HK2.
  assert (K * 2 <= Z.pos m2 * Q) by nia. nia.
Qed.

Lemma scaled_compare m1 e1 m2 e2 s1 s2 :
  valid_binary (S754_finite s1 m1 e1) = true ->
  valid_binary (S754_finite s2 m2 e2) = true ->
  match Z.compare e1 e2 with
  | Lt => Lt
  | Gt => Gt
  | Eq => Pos.compare_cont Eq m1 m2
  end = (scaled m1 e1 ?= scaled m2 e2).
Proof.
  intros H1 H2. destruct (Z.compare_spec e1 e2) as [-> | Hlt | Hgt].
  - change (Pos.compare_cont Eq m1 m2) with (Pos.compare m1 m2).
    unfold scaled. apply valid_finite_inv in H2. destruct H2 as (He & _).
    pose proof (pow2_pos (e2 - emin)) as Hp. unfold SpecFloat.emin, emax, prec in *.
    assert (Hp' : 0 < 2 ^ (e2 - (3 - 1024 - 53))) by (apply Hp; lia). clear Hp. rename Hp' into Hp.
    destruct (Pos.compare_spec m1 m2) as [-> | Hm | Hm]; symmetry.
    + apply Z.compare_refl.
    + apply Z.compare_lt_iff. apply Z.mul_lt_mono_pos_r; [exact Hp | lia].
    + apply Z.compare_gt_iff. apply Z.mul_lt_mono_pos_r; [exact Hp | lia].
  - symmetry. apply Z.compare_lt_iff. eapply scaled_lt_exp; eauto.
  - symmetry. apply Z.compare_gt_iff. eapply scaled_lt_exp; eauto.
Qed.

Ltac order_by_lia :=
  f_equal;
  try (symmetry;
       first [ apply Z.compare_eq_iff; lia
             | apply Z.compare_lt_iff; lia
             | apply Z.compare_gt_iff; lia ]).

Lemma SFcompare_val (x y : spec_float) :
  valid_binary x = true -> valid_binary y = true ->
  is_SFnan x = false -> is_SFnan y = false ->
  SFcompare x y = Some (SFval x ?= SFval y).
Proof.
  intros Hx Hy Nx Ny.
  assert (Htop : 0 < top) by (unfold top; apply pow2_pos; unfold SpecFloat.emin, emax, prec; lia).
  destruct x as [sx | sx | | sx mx ex]; try discriminate;
  destruct y as [sy | sy | | sy my ey]; try discriminate; cbn [SFcompare SFval].
  - rewrite Z.compare_refl. reflexivity.
  - destruct sy; order_by_lia.
  - pose proof (scaled_pos my ey). apply valid_finite_inv in Hy.
    destruct sy; cbn [cond_Zopp]; order_by_lia.
  - destruct sx; order_by_lia.
  - destruct sx, sy; order_by_lia.
  - pose proof (scaled_lt_top _ _ _ Hy). pose proof (scaled_pos my ey).
    apply valid_finite_inv in Hy.
    destruct sx, sy; cbn [cond_Zopp]; order_by_lia.
  - pose proof (scaled_pos mx ex). apply valid_finite_inv in Hx.
    destruct sx; cbn [cond_Zopp]; order_by_lia.
  - pose proof (scaled_lt_top _ _ _ Hx). pose proof (scaled_pos mx ex).
    apply valid_finite_inv in Hx.
    destruct sx, sy; cbn [cond_Zopp]; order_by_lia.
  - pose proof (scaled_pos mx ex). pose proof (scaled_pos my ey).
    pose proof (scaled_compare mx ex my ey sx sy Hx Hy) as Hc.
    pose proof (scaled_compare my ey mx ex sy sx Hy Hx) as Hc'.
    apply valid_finite_inv in Hx. apply valid_finite_inv in Hy.
    destruct sx, sy; cbn [cond_Zopp].
    + f_equal. rewrite Z.compare_opp. rewrite <- Hc'.
      change (Pos.compare_cont Eq mx my) with (Pos.compare mx my).
      change (Pos.compare_cont Eq my mx) with (Pos.compare my mx).
      rewrite (Z.compare_antisym ex ey), (Pos.compare_antisym mx my).
      destruct (ex ?= ey); reflexivity.
    + order_by_lia.
    + order_by_lia.
    + f_equal. exact Hc.
Qed.

Lemma fexp64 (x : Z) : fexp prec emax x = Z.max (x - 53) (-1074).
Proof. reflexivity. Qed.

Lemma iter_pos_nat {A} (f : A -> A) (p : positive) (x : A) :
  iter_pos f p x = Nat.iter (Pos.to_nat p) f x.
Proof.
  revert x. induction p as [p IH | p IH |]; intros x; cbn [iter_pos].
  - rewrite !IH. rewrite Pos2Nat.inj_xI.
    replace (S (2 * Pos.to_nat p)) with (Pos.to_nat p + (Pos.to_nat p + 1))%nat by lia.
    rewrite !Nat.iter_add. reflexivity.
  - rewrite !IH. rewrite Pos2Nat.inj_xO.
    replace (2 * Pos.to_nat p)%nat with (Pos.to_nat p + Pos.to_nat p)%nat by lia.
    rewrite Nat.iter_add. reflexivity.
  - reflexivity.
Qed.

Lemma shr_1_nonneg (m : Z) (r s : bool) :
  0 <= m ->
  shr_1 (Build_shr_record m r s) = Build_shr_record (m / 2) (Z.odd m) (r || s).
Proof.
  intros Hm. destruct m as [| p | p]; [reflexivity | | lia].
  destruct p as [p | p |]; cbn [shr_1].
  - replace (Zpos p~1 / 2) with (Zpos p); [reflexivity |].
    rewrite Pos2Z.inj_xI. apply Z.div_unique with (r := 1); lia.
  - replace (Zpos p~0 / 2) with (Zpos p); [reflexivity |].
    rewrite Pos2Z.inj_xO. apply Z.div_unique with (r := 0); lia.
  - reflexivity.
Qed.

Lemma shr_iter_nonneg (n : nat) (m : Z) :
  0 <= m ->
  exists r s,
    Nat.iter n shr_1 (Build_shr_record m false false)
      = Build_shr_record (m / 2 ^ Z.of_nat n) r s
    /\ (m mod 2 ^ Z.of_nat n = 0 -> r = false /\ s = false).
Proof.
  intros Hm. induction n as [| n IH].
  - exists false, false. change (2 ^ Z.of_nat 0) with 1.
    change (Nat.iter 0 shr_1 ?x) with x.
    rewrite Z.div_1_r. auto.
  - destruct IH as (r & s & Hit & Hex).
    rewrite Nat.iter_succ, Hit.
    assert (Hp : 0 < 2 ^ Z.of_nat n) by (apply Z.pow_pos_nonneg; lia).
    assert (Hq : 0 <= m / 2 ^ Z.of_nat n) by (apply Z.div_pos; lia).
    rewrite shr_1_nonneg by exact Hq.
    exists (Z.odd (m / 2 ^ Z.of_nat n)), (r || s)%bool. split.
    + f_equal. rewrite Nat2Z.inj_succ, Z.pow_succ_r by lia.
      rewrite Z.div_div by lia. f_equal. lia.
    + rewrite Nat2Z.inj_succ, Z.pow_succ_r by lia. intros Hmod.
      assert (Hdiv : (2 * 2 ^ Z.of_nat n | m)).
      { apply Z.mod_divide; [lia | exact Hmod]. }
      destruct Hdiv as [q Hq'].
      assert (Hm0 : m mod 2 ^ Z.of_nat n = 0).
      { apply Z.mod_divide; [lia |]. exists (q * 2). lia. }
      destruct (Hex Hm0) as [-> ->]. split; [| reflexivity].
      replace (m / 2 ^ Z.of_nat n) with (q * 2).
      * rewrite Z.odd_mul. cbn. apply andb_false_r.
      * apply Z.div_unique with (r := 0); lia.
Qed.

Lemma shr_nonneg (m e k : Z) :
  0 <= m -> 0 <= k ->
  exists r s,
    shr (Build_shr_record m false false) e k
      = (Build_shr_record (m / 2 ^ k) r s, e + k)
    /\ (m mod 2 ^ k = 0 -> r = false /\ s = false).
Proof.
  intros Hm Hk. destruct k as [| p | p]; [| | lia].
  - exists false, false. cbn [shr]. change (2 ^ 0) with 1.
    rewrite Z.div_1_r, Z.add_0_r. auto.
  - destruct (shr_iter_nonneg (Pos.to_nat p) m Hm) as (r & s & Hit & Hex).
    rewrite positive_nat_Z in Hit, Hex.
    exists r, s. cbn [shr]. rewrite iter_pos_nat, Hit. auto.
Qed.

Lemma round_nearest_even_bounds (m : Z) (l : location) :
  m <= round_nearest_even m l <= m + 1.
Proof.
  destruct l as [| []]; cbn [round_nearest_even]; try lia.
  destruct (Z.even m); lia.
Qed.

Lemma pos_iter_xO (m d : positive) :
  Zpos (Pos.iter xO m d) = Zpos m * 2 ^ Zpos d.
Proof.
  induction d as [| d IH] using Pos.peano_ind.
  - cbn [Pos.iter]. rewrite Pos2Z.inj_xO. change (2 ^ 1) with 2. lia.
  - rewrite Pos.iter_succ, Pos2Z.inj_xO, IH, Pos2Z.inj_succ, Z.pow_succ_r by lia. lia.
Qed.

Lemma digits_pos_iter_xO (m d : positive) :
  Zpos (digits2_pos (Pos.iter xO m d)) = Zpos (digits2_pos m) + Zpos d.
Proof.
  induction d as [| d IH] using Pos.peano_ind.
  - cbn [Pos.iter digits2_pos]. lia.
  - rewrite Pos.iter_succ. cbn [digits2_pos]. rewrite Pos2Z.inj_succ, IH. lia.
Qed.

(** Digits from bounds. *)
Lemma digits2_pos_le (q : positive) (n : Z) :
  0 <= n -> Zpos q < 2 ^ n -> Zpos (digits2_pos q) <= n.
Proof.
  intros Hn Hq. pose proof (digits2_pos_bounds q) as [Hlo _].
  destruct (Z_le_gt_dec (Zpos (digits2_pos q)) n) as [|Hgt]; [assumption|].
  assert (2 ^ n <= 2 ^ (Zpos (digits2_pos q) - 1)) by (apply Z.pow_le_mono_r; lia).
  lia.
Qed.

Lemma shr_fexp_canonical (q : positive) (c : Z) :
  -1074 <= c -> Zpos q < 2 ^ 53 ->
  shr_fexp prec emax (Zpos q) c loc_Exact = (Build_shr_record (Zpos q) false false, c).
Proof.
  intros Hc Hq. unfold shr_fexp. cbn [Zdigits2]. rewrite fexp64.
  pose proof (digits2_pos_le q 53 ltac:(lia) Hq) as Hd.
  cbn [shr_record_of_loc].
  destruct (Z.max (Zpos (digits2_pos q) + c - 53) (-1074) - c) eqn:E;
    cbn [shr]; try reflexivity. lia.
Qed.

Lemma shr_fexp_carry (c : Z) :
  -1074 <= c ->
  shr_fexp prec emax 9007199254740992 c loc_Exact
  = (Build_shr_record 4503599627370496 false false, c + 1).
Proof.
  intros Hc. unfold shr_fexp. rewrite fexp64.
  change (Zdigits2 9007199254740992) with 54.
  replace (Z.max (54 + c - 53) (-1074) - c) with 1 by lia.
  reflexivity.
Qed.

Lemma shr_fexp_pos (p : positive) (e : Z) :
  shr_fexp prec emax (Zpos p) e loc_Exact
  = shr (Build_shr_record (Zpos p) false false) e
        (Z.max (Zpos (digits2_pos p) + e - 53) (-1074) - e).
Proof. reflexivity. Qed.

(** What rounding a positive integer mantissa produces: the mantissa
    [m1] kept is within one unit in the last place [C] of the exact
    value [S], and equal to it where [S] is a multiple of [C]. *)
Lemma binary_round_char (sx : bool) (p : positive) (e : Z) :
  -1074 <= e ->
  let c := Z.max (Zpos (digits2_pos p) + e - 53) (-1074) in
  let S := Zpos p * 2 ^ (e + 1074) in
  let C := 2 ^ (c + 1074) in
  exists m1 : positive,
    Zpos m1 <= 2 ^ 53 /\ S - C < Zpos m1 * C < S + C /\
    ((binary_round prec emax sx p e = S754_infinity sx /\
      (971 < c \/ (Zpos m1 = 2 ^ 53 /\ 971 < c + 1)))
     \/ exists m' e',
        binary_round prec emax sx p e = S754_finite sx m' e' /\
        scaled m' e' = Zpos m1 * C /\ c <= e' <= 971).
Proof.
  intros He c S C.
  pose proof (digits2_pos_bounds p) as [Hlo Hhi].
  set (d := Zpos (digits2_pos p)) in *.
  assert (Hc : -1074 <= c) by (unfold c; lia).
  assert (HC : 0 < C) by (unfold C; apply pow2_pos; lia).
  unfold binary_round. rewrite fexp64. fold d. fold c.
  destruct (Z_lt_le_dec c e) as [Hlt | Hge].
  - (* the mantissa is shifted left: the result is exact *)
    unfold shl_align. destruct (c - e) as [| k | k] eqn:Ek; try lia.
    assert (Hk : e = c + Zpos k) by lia.
    assert (Hmz : Zpos (Pos.iter xO p k) < 2 ^ 53).
    { rewrite pos_iter_xO.
      assert (d + Zpos k <= 53) by (unfold c in *; lia).
      assert (2 ^ d * 2 ^ Zpos k <= 2 ^ 53).
      { rewrite <- Z.pow_add_r by lia. apply Z.pow_le_mono_r; lia. }
      assert (0 < 2 ^ Zpos k) by (apply pow2_pos; lia). nia. }
    exists (Pos.iter xO p k). split; [lia |].
    assert (HS : Zpos (Pos.iter xO p k) * C = S).
    { rewrite pos_iter_xO. unfold S, C.
      replace (e + 1074) with (Zpos k + (c + 1074)) by lia.
      rewrite (Z.pow_add_r 2 (Zpos k) (c + 1074)) by lia. ring. }
    split; [lia |].
    unfold binary_round_aux.
    rewrite shr_fexp_canonical by assumption. cbn [shr_m loc_of_shr_record round_nearest_even].
    rewrite shr_fexp_canonical by assumption. cbn [shr_m].
    change (emax - prec) with 971.
    destruct (Z.leb_spec c 971).
    + right. exists (Pos.iter xO p k), c. split; [reflexivity |]. split; [| lia].
      unfold scaled. replace (c - SpecFloat.emin prec emax) with (c + 1074)
        by (change (SpecFloat.emin prec emax) with (-1074); lia).
      reflexivity.
    + left. split; [reflexivity | lia].
  - (* the mantissa is shifted right and rounded *)
    assert (Hal : shl_align p e c = (p, e)).
    { unfold shl_align. destruct (c - e) eqn:Ek; try reflexivity. lia. }
    rewrite Hal. unfold binary_round_aux. rewrite (shr_fexp_pos p e).
    fold d. fold c.
    destruct (shr_nonneg (Zpos p) e (c - e) ltac:(lia) ltac:(lia)) as (r & s & Hshr & Hex).
    rewrite Hshr. cbn [shr_m].
    replace (e + (c - e)) with c by lia.
    set (k := c - e) in *.
    assert (Hk0 : 0 <= k) by (unfold k; lia).
    assert (HK : 0 < 2 ^ k) by (apply pow2_pos; lia).
    set (mt := Zpos p / 2 ^ k) in *.
    assert (HCS : C = 2 ^ k * 2 ^ (e + 1074)).
    { unfold C. replace (c + 1074) with (k + (e + 1074)) by (unfold k; lia).
      apply Z.pow_add_r; lia. }
    assert (HE : 0 < 2 ^ (e + 1074)) by (apply pow2_pos; lia).
    pose proof (Z.div_mod (Zpos p) (2 ^ k) ltac:(lia)) as Hdm.
    pose proof (Z.mod_pos_bound (Zpos p) (2 ^ k) HK) as Hmb.
    fold mt in Hdm.
    (* the truncated mantissa has at most 53 digits and is not zero *)
    assert (Hmt : 1 <= mt < 2 ^ 53).
    { destruct (Z.eq_dec k 0) as [Hk | Hk].
      - unfold mt. rewrite Hk. change (2 ^ 0) with 1. rewrite Z.div_1_r.
        assert (d <= 53) by (unfold k, c in *; lia).
        assert (2 ^ d <= 2 ^ 53) by (apply Z.pow_le_mono_r; lia). lia.
      - assert (Hkd : k = d - 53) by (unfold k, c in *; lia).
        assert (Hd1 : 2 ^ d = 2 ^ 53 * 2 ^ k).
        { rewrite <- Z.pow_add_r by lia. f_equal. lia. }
        assert (Hd2 : 2 ^ (d - 1) = 2 ^ 52 * 2 ^ k).
        { rewrite <- Z.pow_add_r by lia. f_equal. lia. }
        split.
        + assert (2 ^ 52 <= mt); [| lia].
          apply Z.div_le_lower_bound; [lia |]. lia.
        + apply Z.div_lt_upper_bound; [lia |]. lia. }
    set (m1 := round_nearest_even mt (loc_of_shr_record (Build_shr_record mt r s))).
    pose proof (round_nearest_even_bounds mt (loc_of_shr_record (Build_shr_record mt r s)))
      as Hrne. fold m1 in Hrne.
    assert (Hexact : Zpos p mod 2 ^ k = 0 -> m1 = mt).
    { intros H0. destruct (Hex H0) as [-> ->]. reflexivity. }
    assert (Hm1 : 1 <= m1 <= 2 ^ 53) by lia.
    destruct m1 as [| q | q] eqn:Eq1; try lia.
    exists q. split; [lia |]. split.
    { unfold S. rewrite HCS.
      destruct (Z.eq_dec (Zpos p mod 2 ^ k) 0) as [H0 | H0].
      - rewrite (Hexact H0). nia.
      - nia. }
    change (emax - prec) with 971.
    destruct (Z.eq_dec (Zpos q) (2 ^ 53)) as [Hq | Hq].
    + change (2 ^ 53) with 9007199254740992 in Hq. rewrite Hq.
      rewrite shr_fexp_carry by assumption. cbn [shr_m].
      destruct (Z.leb_spec (c + 1) 971).
      * right. exists 4503599627370496%positive, (c + 1). split; [reflexivity |].
        split; [| lia]. unfold scaled, C.
        replace (c + 1 - SpecFloat.emin prec emax) with (Z.succ (c + 1074))
          by (change (SpecFloat.emin prec emax) with (-1074); lia).
        rewrite Z.pow_succ_r by lia. lia.
      * left. split; [reflexivity |]. right. split; [reflexivity | lia].
    + rewrite shr_fexp_canonical by (try assumption; lia). cbn [shr_m].
      destruct (Z.leb_spec c 971).
      * right. exists q, c. split; [reflexivity |]. split; [| lia].
        unfold scaled. replace (c - SpecFloat.emin prec emax) with (c + 1074)
        by (change (SpecFloat.emin prec emax) with (-1074); lia).
        reflexivity.
      * left. split; [reflexivity | lia].
Qed.

Lemma scaled_unfold (m : positive) (e : Z) : scaled m e = Zpos m * 2 ^ (e + 1074).
Proof.
  unfold scaled. change (SpecFloat.emin prec emax) with (-1074).
  replace (e - -1074) with (e + 1074) by lia. reflexivity.
Qed.

Lemma mul_lt_cancel_r (a b c : Z) : 0 < c -> a * c < b * c -> a < b.
Proof. intros Hc H. nia. Qed.

Lemma binary_round_positive (p : positive) (e : Z) :
  -1074 <= e ->
  0 < SFval (binary_round prec emax false p e)
  /\ is_SFnan (binary_round prec emax false p e) = false.
Proof.
  intros He.
  destruct (binary_round_char false p e He) as (m1 & _ & _ & [[Hr _] | (m' & e' & Hr & _ & He')]);
    rewrite Hr; cbn [SFval is_SFnan cond_Zopp]; (split; [| reflexivity]).
  - unfold top. apply pow2_pos. discriminate.
  - apply scaled_pos. lia.
Qed.

(** Rounding never goes below a representable number that the exact
    value is not below. *)
Lemma binary_round_lower (p : positive) (e : Z) (sx : bool) (mx : positive) (ex : Z) :
  -1074 <= e ->
  valid_binary (S754_finite sx mx ex) = true ->
  scaled mx ex <= Zpos p * 2 ^ (e + 1074) ->
  scaled mx ex <= SFval (binary_round prec emax false p e).
Proof.
  intros He Hv Hle.
  pose proof (scaled_lt_top _ _ _ Hv) as Htop.
  apply valid_finite_inv in Hv. destruct Hv as (Hex & Hdx & Hcan).
  destruct (binary_round_char false p e He) as (m1 & Hm1 & Hnear & Hres).
  cbv zeta in Hnear, Hres.
  pose proof (digits2_pos_bounds p) as [Hlo _].
  pose proof (digits2_pos_bounds mx) as [_ Hxhi].
  set (d := Zpos (digits2_pos p)) in *.
  set (c := Z.max (d + e - 53) (-1074)) in *.
  assert (HC : 0 < 2 ^ (c + 1074)) by (apply pow2_pos; unfold c; lia).
  assert (Hgoal : scaled mx ex <= Zpos m1 * 2 ^ (c + 1074)).
  { rewrite scaled_unfold in *.
    destruct (Z_le_gt_dec c ex) as [Hcx | Hcx].
    - replace (ex + 1074) with ((ex - c) + (c + 1074)) in * by lia.
      rewrite (Z.pow_add_r 2 (ex - c) (c + 1074)) in * by lia.
      assert (0 < 2 ^ (ex - c)) by (apply pow2_pos; lia).
      rewrite Z.mul_assoc in *.
      assert (Zpos mx * 2 ^ (ex - c) < Zpos m1 + 1).
      { apply mul_lt_cancel_r with (c := 2 ^ (c + 1074)); [exact HC | lia]. }
      nia.
    - assert (Hc53 : c = d + e - 53) by (unfold c in *; lia).
      assert (H1 : Zpos mx * 2 ^ (ex + 1074) < 2 ^ 52 * 2 ^ (c + 1074)).
      { assert (Zpos mx < 2 ^ 53).
        { eapply Z.lt_le_trans; [exact Hxhi |]. apply Z.pow_le_mono_r; lia. }
        assert (2 * 2 ^ (ex + 1074) <= 2 ^ (c + 1074)).
        { rewrite <- Z.pow_succ_r by lia. apply Z.pow_le_mono_r; lia. }
        assert (0 < 2 ^ (ex + 1074)) by (apply pow2_pos; lia).
        change (2 ^ 53) with (2 ^ 52 * 2) in *. nia. }
      assert (H2 : 2 ^ 52 * 2 ^ (c + 1074) <= Zpos p * 2 ^ (e + 1074)).
      { rewrite <- Z.pow_add_r by (unfold c; lia).
        replace (52 + (c + 1074)) with ((d - 1) + (e + 1074)) by lia.
        rewrite Z.pow_add_r by lia.
        apply Z.mul_le_mono_nonneg_r; [apply Z.lt_le_incl, pow2_pos; lia | exact Hlo]. }
      assert (2 ^ 52 < Zpos m1 + 1).
      { apply mul_lt_cancel_r with (c := 2 ^ (c + 1074)); [exact HC | lia]. }
      nia. }
  destruct Hres as [[Hr _] | (m' & e' & Hr & Hval & _)]; rewrite Hr; cbn [SFval cond_Zopp]; lia.
Qed.

(** Rounding never goes above a representable number that the exact
    value is not above; in particular it does not overflow. *)
Lemma binary_round_upper (p : positive) (e : Z) (sx : bool) (mx : positive) (ex : Z) :
  -1074 <= e ->
  valid_binary (S754_finite sx mx ex) = true ->
  Zpos p * 2 ^ (e + 1074) <= scaled mx ex ->
  SFval (binary_round prec emax false p e) <= scaled mx ex.
Proof.
  intros He Hv Hle.
  apply valid_finite_inv in Hv. destruct Hv as (Hex & Hdx & Hcan).
  destruct (binary_round_char false p e He) as (m1 & Hm1 & Hnear & Hres).
  cbv zeta in Hnear, Hres.
  pose proof (digits2_pos_bounds p) as [Hlo _].
  pose proof (digits2_pos_bounds mx) as [_ Hxhi].
  set (d := Zpos (digits2_pos p)) in *.
  set (dx := Zpos (digits2_pos mx)) in *.
  set (c := Z.max (d + e - 53) (-1074)) in *.
  assert (HC : 0 < 2 ^ (c + 1074)) by (apply pow2_pos; unfold c; lia).
  rewrite scaled_unfold in *.
  assert (HE : 0 < 2 ^ (e + 1074)) by (apply pow2_pos; lia).
  assert (HX : 0 < 2 ^ (ex + 1074)) by (apply pow2_pos; lia).
  (* the exact value has no more digits than the bound *)
  assert (Hdig : d + e <= dx + ex).
  { assert (2 ^ ((d - 1) + (e + 1074)) < 2 ^ (dx + (ex + 1074))).
    { rewrite (Z.pow_add_r 2 (d - 1) (e + 1074)) by (unfold d; lia).
      rewrite (Z.pow_add_r 2 dx (ex + 1074)) by (unfold dx; lia).
      assert (0 < 2 ^ (d - 1)) by (apply pow2_pos; unfold d; lia). nia. }
    apply Z.pow_lt_mono_r_iff in H; unfold d, dx in *; lia. }
  assert (Hcx : c <= ex) by (unfold c; lia).
  replace (ex + 1074) with ((ex - c) + (c + 1074)) in * by lia.
  rewrite (Z.pow_add_r 2 (ex - c) (c + 1074)) in * by lia.
  assert (0 < 2 ^ (ex - c)) by (apply pow2_pos; lia).
  rewrite Z.mul_assoc in *.
  assert (Hm : Zpos m1 < Zpos mx * 2 ^ (ex - c) + 1).
  { apply mul_lt_cancel_r with (c := 2 ^ (c + 1074)); [exact HC | lia]. }
  destruct Hres as [[Hr Hover] | (m' & e' & Hr & Hval & _)]; rewrite Hr; cbn [SFval cond_Zopp].
  - exfalso. destruct Hover as [Hover | [Hbig Hover]]; [lia |].
    assert (Zpos mx < 2 ^ 53).
    { eapply Z.lt_le_trans; [exact Hxhi |]. apply Z.pow_le_mono_r; unfold dx; lia. }
    assert (ex = c) by lia.
    replace (ex - c) with 0 in * by lia. change (2 ^ 0) with 1 in *. lia.
  - rewrite Hval. nia.
Qed.

Lemma binary_round_opp (p : positive) (e : Z) :
  binary_round prec emax true p e = SFopp (binary_round prec emax false p e).
Proof.
  unfold binary_round, binary_round_aux.
  destruct (shl_align p e _) as [mz ez].
  destruct (shr_fexp prec emax (Zpos mz) ez loc_Exact) as [mrs' e'].
  destruct (shr_fexp prec emax _ e' loc_Exact) as [mrs'' e''].
  destruct (shr_m mrs''); try reflexivity.
  destruct (e'' <=? emax - prec); reflexivity.
Qed.

Lemma SFval_opp (x : spec_float) : SFval (SFopp x) = - SFval x.
Proof.
  destruct x as [s | s | | s m e]; cbn [SFopp SFval]; try reflexivity.
  - destruct s; cbn [negb]; lia.
  - destruct s; cbn [negb cond_Zopp]; lia.
Qed.

Lemma valid_opp (x : spec_float) :
  valid_binary x = true -> valid_binary (SFopp x) = true.
Proof. destruct x; intros H; exact H. Qed.

Lemma shl_align_scaled (m : positive) (e ez : Z) :
  -1074 <= ez <= e ->
  Zpos (fst (shl_align m e ez)) * 2 ^ (ez + 1074) = scaled m e.
Proof.
  intros H. rewrite scaled_unfold. unfold shl_align.
  destruct (ez - e) as [| k | k] eqn:Ek; cbn [fst]; try lia.
  - replace ez with e by lia. reflexivity.
  - rewrite pos_iter_xO. replace (e + 1074) with (Zpos k + (ez + 1074)) by lia.
    rewrite (Z.pow_add_r 2 (Zpos k) (ez + 1074)) by lia. ring.
Qed.

(** The sum of two finite numbers, rounded, stays on the same side of
    every representable number as the exact sum. *)
Lemma binary_normalize_bounds (M ez : Z) (z : spec_float) :
  -1074 <= ez ->
  valid_binary z = true ->
  match z with S754_zero _ | S754_finite _ _ _ => True | _ => False end ->
  let r := binary_normalize prec emax M ez false in
  is_SFnan r = false /\
  (SFval z <= M * 2 ^ (ez + 1074) -> SFval z <= SFval r) /\
  (M * 2 ^ (ez + 1074) <= SFval z -> SFval r <= SFval z).
Proof.
  intros He Hz Hfin r.
  assert (HE : 0 < 2 ^ (ez + 1074)) by (apply pow2_pos; lia).
  destruct M as [| p | p]; unfold r; cbn [binary_normalize].
  - cbn [SFval is_SFnan]. split; [reflexivity | lia].
  - destruct (binary_round_positive p ez He) as [Hpos Hnan].
    split; [exact Hnan |].
    destruct z as [sz | sz | | sz mz ez']; try contradiction; cbn [SFval].
    + split; intros; lia.
    + pose proof (scaled_pos mz ez') as Hp. pose proof Hz as Hz'.
      apply valid_finite_inv in Hz'.
      destruct sz; cbn [cond_Zopp]; split; intros H; try lia.
      * eapply binary_round_lower; eauto.
      * eapply binary_round_upper; eauto.
  - rewrite binary_round_opp, SFval_opp.
    destruct (binary_round_positive p ez He) as [Hpos Hnan].
    split; [destruct (binary_round prec emax false p ez); try reflexivity; discriminate |].
    change (Z.neg p) with (- Zpos p).
    destruct z as [sz | sz | | sz mz ez']; try contradiction; cbn [SFval].
    + split; intros; lia.
    + pose proof (scaled_pos mz ez') as Hp. pose proof Hz as Hz'.
      apply valid_finite_inv in Hz'.
      destruct sz; cbn [cond_Zopp]; split; intros H; try lia.
      * assert (SFval (binary_round prec emax false p ez) <= scaled mz ez'); [| lia].
        eapply binary_round_upper; eauto. lia.
      * assert (scaled mz ez' <= SFval (binary_round prec emax false p ez)); [| lia].
        eapply binary_round_lower; eauto. lia.
Qed.

Lemma SFadd_finite_bounds (sx : bool) (mx : positive) (ex : Z)
      (sy : bool) (my : positive) (ey : Z) (z : spec_float) :
  valid_binary (S754_finite sx mx ex) = true ->
  valid_binary (S754_finite sy my ey) = true ->
  valid_binary z = true ->
  match z with S754_zero _ | S754_finite _ _ _ => True | _ => False end ->
  let x := S754_finite sx mx ex in
  let y := S754_finite sy my ey in
  is_SFnan (SF64add x y) = false /\
  (SFval z <= SFval x + SFval y -> SFval z <= SFval (SF64add x y)) /\
  (SFval x + SFval y <= SFval z -> SFval (SF64add x y) <= SFval z).
Proof.
  intros Hx Hy Hz Hfin x y.
  pose proof (valid_finite_inv _ _ _ Hx) as (Hex & _).
  pose proof (valid_finite_inv _ _ _ Hy) as (Hey & _).
  unfold SF64add, x, y. cbn [SFadd SFval].
  set (ez := Z.min ex ey).
  assert (Hez : -1074 <= ez) by (unfold ez; lia).
  set (M := cond_Zopp sx (Zpos (fst (shl_align mx ex ez)))
            + cond_Zopp sy (Zpos (fst (shl_align my ey ez)))).
  assert (HM : M * 2 ^ (ez + 1074)
               = cond_Zopp sx (scaled mx ex) + cond_Zopp sy (scaled my ey)).
  { rewrite <- (shl_align_scaled mx ex ez) by (unfold ez; lia).
    rewrite <- (shl_align_scaled my ey ez) by (unfold ez; lia).
    unfold M. destruct sx, sy; cbn [cond_Zopp]; ring. }
  rewrite <- HM.
  apply binary_normalize_bounds; assumption.
Qed.

Lemma top_pos : 0 < top.
Proof. unfold top. apply pow2_pos. discriminate. Qed.

Lemma SFval_finite_bounds (s : bool) (m : positive) (e : Z) :
  valid_binary (S754_finite s m e) = true ->
  - top < SFval (S754_finite s m e) < top /\ SFval (S754_finite s m e) <> 0.
Proof.
  intros Hv. pose proof (scaled_lt_top _ _ _ Hv).
  apply valid_finite_inv in Hv. pose proof (scaled_pos m e).
  cbn [SFval]. destruct s; cbn [cond_Zopp]; lia.
Qed.

(** Adding a positive number never gives less. *)
Lemma SFadd_ge_left (x y : spec_float) :
  valid_binary x = true -> valid_binary y = true ->
  is_SFnan x = false -> is_SFnan y = false ->
  0 < SFval y ->
  is_SFnan (SF64add x y) = true \/ SFval x <= SFval (SF64add x y).
Proof.
  intros Hx Hy Nx Ny Hpos. pose proof top_pos.
  destruct x as [sx | sx | | sx mx ex]; try discriminate;
  destruct y as [sy | sy | | sy my ey]; try discriminate;
    try (cbn [SFval] in Hpos; lia).
  - right. destruct sy; cbn in Hpos |- *; lia.
  - right. cbn [SF64add SFadd]. unfold SF64add. cbn [SFadd SFval]. cbn [SFval] in Hpos. lia.
  - destruct sy; [cbn in Hpos; lia |]. destruct sx; [left; reflexivity | right; cbn; lia].
  - right. unfold SF64add. cbn [SFadd]. lia.
  - right. destruct sy; [cbn in Hpos; lia |]. unfold SF64add. cbn [SFadd].
    pose proof (SFval_finite_bounds _ _ _ Hx). cbn [SFval] in *. lia.
  - right.
    destruct (SFadd_finite_bounds sx mx ex sy my ey (S754_finite sx mx ex) Hx Hy Hx I)
      as (_ & Hlow & _).
    apply Hlow. lia.
Qed.

(** Subtracting a number that is not larger never gives a negative. *)
Lemma SFsub_nonneg (x y : spec_float) :
  valid_binary x = true -> valid_binary y = true ->
  is_SFnan x = false -> is_SFnan y = false ->
  SFval y <= SFval x ->
  is_SFnan (SF64sub x y) = true \/ 0 <= SFval (SF64sub x y).
Proof.
  intros Hx Hy Nx Ny Hle. pose proof top_pos. unfold SF64sub.
  destruct x as [sx | sx | | sx mx ex]; try discriminate;
  destruct y as [sy | sy | | sy my ey]; try discriminate.
  - right. destruct sx, sy; cbn; lia.
  - right. destruct sy; cbn in Hle |- *; lia.
  - right. pose proof (SFval_finite_bounds _ _ _ Hy). cbn [SFsub SFval] in *.
    destruct sy; cbn [negb cond_Zopp] in *; lia.
  - right. destruct sx; cbn in Hle |- *; lia.
  - destruct sx, sy; cbn in Hle |- *; try lia; auto.
  - right. pose proof (SFval_finite_bounds _ _ _ Hy). cbn [SFsub SFval] in *.
    destruct sx; lia.
  - right. cbn [SFsub]. cbn [SFval] in Hle. exact Hle.
  - right. pose proof (SFval_finite_bounds _ _ _ Hx). cbn [SFsub SFval] in *.
    destruct sy; cbn [negb]; lia.
  - right.
    assert (Hsub : SFsub prec emax (S754_finite sx mx ex) (S754_finite sy my ey)
                   = SF64add (S754_finite sx mx ex) (S754_finite (negb sy) my ey)).
    { unfold SF64add. cbn [SFsub SFadd]. f_equal.
      destruct sy; cbn [negb cond_Zopp]; lia. }
    rewrite Hsub.
    destruct (SFadd_finite_bounds sx mx ex (negb sy) my ey (S754_zero false) Hx Hy eq_refl I)
      as (_ & Hlow & _).
    apply Hlow. cbn [SFval] in *. destruct sy; cbn [negb cond_Zopp] in *; lia.
Qed.

Lemma Prim2SF_zero : Prim2SF 0%float = S754_zero false.
Proof. reflexivity. Qed.

Lemma SFltb_nan_l (y : spec_float) : SFltb S754_nan y = false.
Proof. reflexivity. Qed.

Lemma SFltb_nan_r (x : spec_float) : SFltb x S754_nan = false.
Proof. destruct x; reflexivity. Qed.

Lemma is_SFnan_true (x : spec_float) : is_SFnan x = true -> x = S754_nan.
Proof. destruct x; try discriminate; reflexivity. Qed.

Lemma SFltb_false_val (x y : spec_float) :
  valid_binary x = true -> valid_binary y = true ->
  is_SFnan x = false -> is_SFnan y = false ->
  SFltb x y = false <-> (SFval y <= SFval x)%Z.
Proof.
  intros Hx Hy Nx Ny. unfold SFltb. rewrite (SFcompare_val x y Hx Hy Nx Ny).
  destruct (Z.compare_spec (SFval x) (SFval y)); split; intros; try lia; try reflexivity;
    discriminate.
Qed.

Lemma SFleb_false_val (x y : spec_float) :
  valid_binary x = true -> valid_binary y = true ->
  is_SFnan x = false -> is_SFnan y = false ->
  SFleb x y = false <-> (SFval y < SFval x)%Z.
Proof.
  intros Hx Hy Nx Ny. unfold SFleb. rewrite (SFcompare_val x y Hx Hy Nx Ny).
  destruct (Z.compare_spec (SFval x) (SFval y)); split; intros; try lia; try reflexivity;
    discriminate.
Qed.

Local Open Scope float_scope.

(** A balance that is not below [L] is not below [L] after a deposit
    that passed the [amount <= 0] guard. *)
Lemma ltb_add_pos (b a L : float) :
  (b <? L) = false -> (a <=? 0) = false -> (b + a <? L) = false.
Proof.
  rewrite !ltb_spec, leb_spec, add_spec, Prim2SF_zero.
  pose proof (Prim2SF_valid b) as Vb. pose proof (Prim2SF_valid a) as Va.
  pose proof (Prim2SF_valid L) as VL. pose proof (Prim2SF_valid (b + a)) as Vr.
  rewrite add_spec in Vr.
  generalize dependent (Prim2SF L). generalize dependent (Prim2SF a).
  generalize dependent (Prim2SF b). intros B VB A VA Vr L' VL HBL HA.
  destruct (is_SFnan B) eqn:NB.
  { apply is_SFnan_true in NB. subst B. reflexivity. }
  destruct (is_SFnan A) eqn:NA.
  { apply is_SFnan_true in NA. subst A. destruct B; reflexivity. }
  destruct (is_SFnan L') eqn:NL.
  { apply is_SFnan_true in NL. subst L'. apply SFltb_nan_r. }
  apply SFltb_false_val in HBL; try assumption.
  apply (SFleb_false_val A (S754_zero false)) in HA; try assumption; try reflexivity.
  cbn [SFval] in HA.
  destruct (SFadd_ge_left B A VB VA NB NA HA) as [Hn | Hge].
  - apply is_SFnan_true in Hn. rewrite Hn. reflexivity.
  - destruct (is_SFnan (SF64add B A)) eqn:NR.
    + apply is_SFnan_true in NR. rewrite NR. reflexivity.
    + apply SFltb_false_val; try assumption. lia.
Qed.

(** A withdrawal that passed the [amount > self.balance] guard leaves a
    balance that is not negative. *)
Lemma ltb_sub_le (b a : float) :
  (b <? a) = false -> (b - a <? 0) = false.
Proof.
  rewrite !ltb_spec, sub_spec, Prim2SF_zero.
  pose proof (Prim2SF_valid b) as Vb. pose proof (Prim2SF_valid a) as Va.
  pose proof (Prim2SF_valid (b - a)) as Vr. rewrite sub_spec in Vr.
  generalize dependent (Prim2SF a). generalize dependent (Prim2SF b).
  intros B VB A VA Vr HBA.
  destruct (is_SFnan B) eqn:NB.
  { apply is_SFnan_true in NB. subst B. reflexivity. }
  destruct (is_SFnan A) eqn:NA.
  { apply is_SFnan_true in NA. subst A. destruct B; reflexivity. }
  apply SFltb_false_val in HBA; try assumption.
  destruct (SFsub_nonneg B A VB VA NB NA HBA) as [Hn | Hge].
  - apply is_SFnan_true in Hn. rewrite Hn. reflexivity.
  - destruct (is_SFnan (SF64sub B A)) eqn:NR.
    + apply is_SFnan_true in NR. rewrite NR. reflexivity.
    + apply SFltb_false_val; try assumption; try reflexivity.
Qed.

Lemma SFcompare_antisym (x y : spec_float) :
  SFcompare y x = option_map CompOpp (SFcompare x y).
Proof.
  destruct x as [sx | sx | | sx mx ex]; destruct y as [sy | sy | | sy my ey];
    cbn [SFcompare option_map]; try reflexivity;
    try (destruct sx; reflexivity); try (destruct sy; reflexivity);
    try (destruct sx, sy; reflexivity).
  f_equal.
  change (Pos.compare_cont Eq mx my) with (Pos.compare mx my).
  change (Pos.compare_cont Eq my mx) with (Pos.compare my mx).
  rewrite (Z.compare_antisym ex ey), (Pos.compare_antisym mx my).
  destruct sx, sy; try reflexivity; destruct (ex ?= ey)%Z; cbn [CompOpp]; try reflexivity;
    destruct (mx ?= my)%positive; reflexivity.
Qed.

Lemma ltb_leb_false (x y : float) : (x <? y) = true -> (y <=? x) = false.
Proof.
  rewrite ltb_spec, leb_spec. unfold SFltb, SFleb.
  rewrite (SFcompare_antisym (Prim2SF x) (Prim2SF y)).
  destruct (SFcompare (Prim2SF x) (Prim2SF y)) as [[] |]; cbn; congruence.
Qed.

Lemma eqb_ltb_false (x y : float) : (x =? y) = true -> (x <? y) = false.
Proof.
  rewrite eqb_spec, ltb_spec. unfold SFeqb, SFltb.
  destruct (SFcompare (Prim2SF x) (Prim2SF y)) as [[] |]; congruence.
Qed.

Lemma eqb_gtb_false (x y : float) : (x =? y) = true -> (y <? x) = false.
Proof.
  rewrite eqb_spec, ltb_spec. unfold SFeqb, SFltb.
  rewrite (SFcompare_antisym (Prim2SF x) (Prim2SF y)).
  destruct (SFcompare (Prim2SF x) (Prim2SF y)) as [[] |]; cbn; congruence.
Qed.

Lemma Prim2SF_is_finite (x : float) :
  is_finite x = true ->
  match Prim2SF x with
  | S754_zero _ | S754_finite _ _ _ => True
  | _ => False
  end.
Proof.
  unfold is_finite, Prim2SF.
  destruct (is_nan x); [discriminate |].
  destruct (is_infinity x); [discriminate |]. intros _.
  destruct (is_zero x); [exact I |].
  destruct (Z.frexp x) as [r e].
  destruct (shr_fexp prec emax _ _ loc_Exact) as [mrs e'].
  destruct (shr_m mrs); exact I.
Qed.

(** [a - b] is [+0.0] when [a == b] and [a] is a positive finite number. *)
Lemma sub_eq_zero (a b : float) :
  is_finite a = true -> (0 <? a) = true -> (a =? b) = true -> a - b = 0.
Proof.
  intros Hfin Hpos Heq. apply Prim2SF_inj.
  rewrite sub_spec, Prim2SF_zero.
  apply Prim2SF_is_finite in Hfin.
  rewrite ltb_spec, Prim2SF_zero in Hpos. rewrite eqb_spec in Heq.
  destruct (Prim2SF a) as [sa | sa | | sa ma ea]; try contradiction.
  - discriminate.
  - destruct sa; [discriminate |].
    destruct (Prim2SF b) as [sb | sb | | sb mb eb]; try discriminate.
    + destruct sb; discriminate.
    + destruct sb; [discriminate |].
      unfold SFeqb in Heq. cbn [SFcompare] in Heq.
      destruct (Z.compare_spec ea eb) as [He | He | He]; try discriminate.
      destruct (Pos.compare_cont Eq ma mb) eqn:Hm; try discriminate.
      apply Pos.compare_eq in Hm. subst.
      unfold SF64sub. cbn [SFsub cond_Zopp]. rewrite Z.sub_diag. reflexivity.
Qed.

(** Two numbers that compare equal, one of them positive and finite,
    are the same number. *)
Lemma eqb_positive_finite (a b : float) :
  is_finite a = true -> (0 <? a) = true -> (a =? b) = true ->
  Prim2SF b = Prim2SF a.
Proof.
  intros Hfin Hpos Heq.
  apply Prim2SF_is_finite in Hfin.
  rewrite ltb_spec, Prim2SF_zero in Hpos. rewrite eqb_spec in Heq.
  destruct (Prim2SF a) as [sa | sa | | sa ma ea]; try contradiction.
  - discriminate.
  - destruct sa; [discriminate |].
    destruct (Prim2SF b) as [sb | sb | | sb mb eb]; try discriminate.
    + destruct sb; discriminate.
    + destruct sb; [discriminate |].
      unfold SFeqb in Heq. cbn [SFcompare] in Heq.
      destruct (Z.compare_spec ea eb) as [He | He | He]; try discriminate.
      destruct (Pos.compare_cont Eq ma mb) eqn:Hm; try discriminate.
      apply Pos.compare_eq in Hm. subst. reflexivity.
Qed.

(** ** NaN *)

Lemma is_nan_Prim2SF (x : float) : is_nan x = true <-> Prim2SF x = S754_nan.
Proof.
  unfold Prim2SF. destruct (is_nan x).
  - split; reflexivity.
  - split; [discriminate |].
    destruct (is_zero x); [discriminate |].
    destruct (is_infinity x); [discriminate |].
    destruct (Z.frexp x) as [r e].
    destruct (shr_fexp prec emax _ _ loc_Exact) as [mrs e'].
    destruct (shr_m mrs); discriminate.
Qed.

Lemma leb_nan_l (x y : float) : is_nan x = true -> (x <=? y) = false.
Proof. intros H. apply is_nan_Prim2SF in H. rewrite leb_spec, H. reflexivity. Qed.

Lemma ltb_nan_l (x y : float) : is_nan x = true -> (x <? y) = false.
Proof. intros H. apply is_nan_Prim2SF in H. rewrite ltb_spec, H. reflexivity. Qed.

Lemma ltb_nan_r (x y : float) : is_nan y = true -> (x <? y) = false.
Proof. intros H. apply is_nan_Prim2SF in H. rewrite ltb_spec, H. apply SFltb_nan_r. Qed.

Lemma add_nan_l (x y : float) : is_nan x = true -> is_nan (x + y) = true.
Proof.
  intros H. apply is_nan_Prim2SF in H. apply is_nan_Prim2SF.
  rewrite add_spec, H. reflexivity.
Qed.

Lemma add_nan_r (x y : float) : is_nan y = true -> is_nan (x + y) = true.
Proof.
  intros H. apply is_nan_Prim2SF in H. apply is_nan_Prim2SF.
  rewrite add_spec, H. destruct (Prim2SF x); reflexivity.
Qed.

Lemma sub_nan_l (x y : float) : is_nan x = true -> is_nan (x - y) = true.
Proof.
  intros H. apply is_nan_Prim2SF in H. apply is_nan_Prim2SF.
  rewrite sub_spec, H. reflexivity.
Qed.

Lemma sub_nan_r (x y : float) : is_nan y = true -> is_nan (x - y) = true.
Proof.
  intros H. apply is_nan_Prim2SF in H. apply is_nan_Prim2SF.
  rewrite sub_spec, H. destruct (Prim2SF x); reflexivity.
Qed.

Lemma mul_nan_l (x y : float) : is_nan x = true -> is_nan (x * y) = true.
Proof.
  intros H. apply is_nan_Prim2SF in H. apply is_nan_Prim2SF.
  rewrite mul_spec, H. reflexivity.
Qed.

(** ** More on the order *)

Lemma ltb_irrefl (x : float) : (x <? x) = false.
Proof.
  rewrite ltb_spec. unfold SFltb.
  pose proof (SFcompare_antisym (Prim2SF x) (Prim2SF x)) as H.
  destruct (SFcompare (Prim2SF x) (Prim2SF x)) as [[] |]; try reflexivity.
  discriminate H.
Qed.

Local Open Scope Z_scope.

(** Adding to a number that is not negative never gives less than what
    was added. *)
Lemma SFadd_ge_right (x y : spec_float) :
  valid_binary x = true -> valid_binary y = true ->
  is_SFnan x = false -> is_SFnan y = false ->
  0 <= SFval x ->
  is_SFnan (SF64add x y) = true \/ SFval y <= SFval (SF64add x y).
Proof.
  intros Hx Hy Nx Ny Hpos. pose proof top_pos. unfold SF64add.
  destruct x as [sx | sx | | sx mx ex]; try discriminate;
  destruct y as [sy | sy | | sy my ey]; try discriminate.
  - right. destruct sx, sy; cbn; lia.
  - right. cbn [SFadd]. lia.
  - right. cbn [SFadd]. lia.
  - right. destruct sx; cbn in Hpos |- *; lia.
  - destruct sx; [cbn in Hpos; lia |]. destruct sy; [left; reflexivity | right; cbn; lia].
  - right. destruct sx; [cbn in Hpos; lia |].
    pose proof (SFval_finite_bounds _ _ _ Hy). cbn [SFadd SFval] in *. lia.
  - right. pose proof (SFval_finite_bounds _ _ _ Hx). cbn [SFadd SFval] in *. lia.
  - right. cbn [SFadd]. lia.
  - right.
    destruct (SFadd_finite_bounds sx mx ex sy my ey (S754_finite sy my ey) Hx Hy Hy I)
      as (_ & Hlow & _).
    apply Hlow. lia.
Qed.

(** Subtracting a positive number never gives more. *)
Lemma SFsub_le_left (x y : spec_float) :
  valid_binary x = true -> valid_binary y = true ->
  is_SFnan x = false -> is_SFnan y = false ->
  0 < SFval y ->
  is_SFnan (SF64sub x y) = true \/ SFval (SF64sub x y) <= SFval x.
Proof.
  intros Hx Hy Nx Ny Hpos. pose proof top_pos. unfold SF64sub.
  destruct x as [sx | sx | | sx mx ex]; try discriminate;
  destruct y as [sy | sy | | sy my ey]; try discriminate;
    try (cbn [SFval] in Hpos; lia).
  - right. destruct sy; cbn in Hpos |- *; lia.
  - right. cbn [SFsub SFval] in *. destruct sy; cbn [negb cond_Zopp] in *; lia.
  - destruct sy; [cbn in Hpos; lia |]. destruct sx; [right; cbn; lia | left; reflexivity].
  - right. cbn [SFsub]. lia.
  - right. destruct sy; [cbn in Hpos; lia |].
    pose proof (SFval_finite_bounds _ _ _ Hx). cbn [SFsub SFval negb] in *. lia.
  - right.
    assert (Hsub : SFsub prec emax (S754_finite sx mx ex) (S754_finite sy my ey)
                   = SF64add (S754_finite sx mx ex) (S754_finite (negb sy) my ey)).
    { unfold SF64add. cbn [SFsub SFadd]. f_equal.
      destruct sy; cbn [negb cond_Zopp]; lia. }
    rewrite Hsub.
    destruct (SFadd_finite_bounds sx mx ex (negb sy) my ey (S754_finite sx mx ex) Hx Hy Hx I)
      as (_ & _ & Hup).
    apply Hup. cbn [SFval] in *. destruct sy; cbn [negb cond_Zopp] in *; lia.
Qed.

Local Open Scope float_scope.

(** After a deposit on a balance that is not negative, the balance is
    not below the amount deposited. *)
Lemma ltb_add_amount (b a : float) :
  (b <? 0) = false -> (b + a <? a) = false.
Proof.
  rewrite !ltb_spec, add_spec, Prim2SF_zero.
  pose proof (Prim2SF_valid b) as Vb. pose proof (Prim2SF_valid a) as Va.
  pose proof (Prim2SF_valid (b + a)) as Vr. rewrite add_spec in Vr.
  generalize dependent (Prim2SF a). generalize dependent (Prim2SF b).
  intros B VB A VA Vr HB.
  destruct (is_SFnan B) eqn:NB.
  { apply is_SFnan_true in NB. subst B. reflexivity. }
  destruct (is_SFnan A) eqn:NA.
  { apply is_SFnan_true in NA. subst A. destruct B; reflexivity. }
  apply (SFltb_false_val B (S754_zero false)) in HB; try assumption; try reflexivity.
  cbn [SFval] in HB.
  destruct (SFadd_ge_right B A VB VA NB NA HB) as [Hn | Hge].
  - apply is_SFnan_true in Hn. rewrite Hn. reflexivity.
  - destruct (is_SFnan (SF64add B A)) eqn:NR.
    + apply is_SFnan_true in NR. rewrite NR. reflexivity.
    + apply SFltb_false_val; assumption.
Qed.

(** A withdrawal that passed the [amount <= 0] guard does not raise the
    balance. *)
Lemma ltb_sub_pos (b a : float) :
  (a <=? 0) = false -> (b <? b - a) = false.
Proof.
  rewrite ltb_spec, leb_spec, sub_spec, Prim2SF_zero.
  pose proof (Prim2SF_valid b) as Vb. pose proof (Prim2SF_valid a) as Va.
  pose proof (Prim2SF_valid (b - a)) as Vr. rewrite sub_spec in Vr.
  generalize dependent (Prim2SF a). generalize dependent (Prim2SF b).
  intros B VB A VA Vr HA.
  destruct (is_SFnan B) eqn:NB.
  { apply is_SFnan_true in NB. subst B. reflexivity. }
  destruct (is_SFnan A) eqn:NA.
  { apply is_SFnan_true in NA. subst A. destruct B; reflexivity. }
  apply (SFleb_false_val A (S754_zero false)) in HA; try assumption; try reflexivity.
  cbn [SFval] in HA.
  destruct (SFsub_le_left B A VB VA NB NA HA) as [Hn | Hle].
  - apply is_SFnan_true in Hn. rewrite Hn. apply SFltb_nan_r.
  - destruct (is_SFnan (SF64sub B A)) eqn:NR.
    + apply is_SFnan_true in NR. rewrite NR. apply SFltb_nan_r.
    + apply SFltb_false_val; assumption.
Qed.

End Binary64.

(** * The methods

    Each method is first given its equations: one per path through its
    body, with the object, the printed lines and the result it ends in. *)

Ltac unfold_methods :=
  unfold Savings.apply_interest, Savings.deposit, Savings.withdraw,
    Checking.deposit, Checking.withdraw,
    savings_super, checking_super, zoom, get_balance, get_transaction_history,
    add_transaction, bind, get, modify, print, raise, ret.

Lemma Savings_deposit_rejected (now : datetime) (a : float) (s : SavingsAccount) :
  (a <=? 0) = true ->
  Savings.deposit now a s
  = mkOutcome s [] (inl (ValueError "Deposit amount must be positive.")).
Proof. intros Ha. unfold_methods. rewrite Ha. reflexivity. Qed.

Lemma Savings_deposit_accepted (now : datetime) (a : float) (s : SavingsAccount) :
  (a <=? 0) = false ->
  Savings.deposit now a s
  = mkOutcome
      (mkSavingsAccount
         (mkBankAccount (owner (savings_base s)) (balance (savings_base s) + a)
            (transactions (savings_base s) ++ [mkTransaction a "Deposit" now]))
         (interest_rate s))
      [[Lit "Deposited "; Fmt2f a; Lit " into Savings Account. New balance: ";
        Fmt2f (balance (savings_base s) + a)]]
      (inr tt).
Proof. intros Ha. unfold_methods. rewrite Ha. reflexivity. Qed.

Lemma Savings_withdraw_rejected (now : datetime) (a : float) (s : SavingsAccount) :
  (a <=? 0) = true ->
  Savings.withdraw now a s
  = mkOutcome s [] (inl (ValueError "Withdrawal amount must be positive.")).
Proof. intros Ha. unfold_methods. rewrite Ha. reflexivity. Qed.

Lemma Savings_withdraw_insufficient (now : datetime) (a : float) (s : SavingsAccount) :
  (a <=? 0) = false -> (balance (savings_base s) <? a) = true ->
  Savings.withdraw now a s = mkOutcome s [] (inl (ValueError "Insufficient funds.")).
Proof. intros Ha Hb. unfold_methods. rewrite Ha. cbn [result final printed]. rewrite Hb. reflexivity. Qed.

Lemma Savings_withdraw_accepted (now : datetime) (a : float) (s : SavingsAccount) :
  (a <=? 0) = false -> (balance (savings_base s) <? a) = false ->
  Savings.withdraw now a s
  = mkOutcome
      (mkSavingsAccount
         (mkBankAccount (owner (savings_base s)) (balance (savings_base s) - a)
            (transactions (savings_base s) ++ [mkTransaction a "Withdrawal" now]))
         (interest_rate s))
      [[Lit "Withdrew "; Fmt2f a; Lit " from Savings Account. New balance: ";
        Fmt2f (balance (savings_base s) - a)]]
      (inr tt).
Proof. intros Ha Hb. unfold_methods. rewrite Ha. cbn [result final printed]. rewrite Hb. reflexivity. Qed.

Lemma Savings_apply_interest_rejected (now : datetime) (s : SavingsAccount) :
  (balance (savings_base s) * interest_rate s <=? 0) = true ->
  Savings.apply_interest now s
  = mkOutcome s [] (inl (ValueError "Deposit amount must be positive.")).
Proof.
  intros Hi. unfold Savings.apply_interest, bind, get. cbn [result final printed].
  rewrite (Savings_deposit_rejected now _ s Hi). reflexivity.
Qed.

Lemma Savings_apply_interest_accepted (now : datetime) (s : SavingsAccount) :
  let interest := balance (savings_base s) * interest_rate s in
  (interest <=? 0) = false ->
  Savings.apply_interest now s
  = mkOutcome
      (mkSavingsAccount
         (mkBankAccount (owner (savings_base s)) (balance (savings_base s) + interest)
            (transactions (savings_base s) ++ [mkTransaction interest "Deposit" now]))
         (interest_rate s))
      [[Lit "Deposited "; Fmt2f interest; Lit " into Savings Account. New balance: ";
        Fmt2f (balance (savings_base s) + interest)];
       [Lit "Applied interest: "; Fmt2f interest; Lit ". New balance: ";
        Fmt2f (balance (savings_base s) + interest)]]
      (inr tt).
Proof.
  intros interest Hi. unfold Savings.apply_interest, bind, get. cbn [result final printed].
  fold interest. rewrite (Savings_deposit_accepted now interest s Hi). reflexivity.
Qed.

Lemma Checking_deposit_rejected (now : datetime) (a : float) (c : CheckingAccount) :
  (a <=? 0) = true ->
  Checking.deposit now a c
  = mkOutcome c [] (inl (ValueError "Deposit amount must be positive.")).
Proof. intros Ha. unfold_methods. rewrite Ha. reflexivity. Qed.

Lemma Checking_deposit_accepted (now : datetime) (a : float) (c : CheckingAccount) :
  (a <=? 0) = false ->
  Checking.deposit now a c
  = mkOutcome
      (mkCheckingAccount
         (mkBankAccount (owner (checking_base c)) (balance (checking_base c) + a)
            (transactions (checking_base c) ++ [mkTransaction a "Deposit" now]))
         (overdraft_limit c))
      [[Lit "Deposited "; Fmt2f a; Lit " into Checking Account. New balance: ";
        Fmt2f (balance (checking_base c) + a)]]
      (inr tt).
Proof. intros Ha. unfold_methods. rewrite Ha. reflexivity. Qed.

Lemma Checking_withdraw_rejected (now : datetime) (a : float) (c : CheckingAccount) :
  (a <=? 0) = true ->
  Checking.withdraw now a c
  = mkOutcome c [] (inl (ValueError "Withdrawal amount must be positive.")).
Proof. intros Ha. unfold_methods. rewrite Ha. reflexivity. Qed.

Lemma Checking_withdraw_overdraft (now : datetime) (a : float) (c : CheckingAccount) :
  (a <=? 0) = false -> (balance (checking_base c) - a <? overdraft_limit c) = true ->
  Checking.withdraw now a c = mkOutcome c [] (inl (ValueError "Overdraft limit reached.")).
Proof. intros Ha Hb. unfold_methods. rewrite Ha. cbn [result final printed]. rewrite Hb. reflexivity. Qed.

Lemma Checking_withdraw_accepted (now : datetime) (a : float) (c : CheckingAccount) :
  (a <=? 0) = false -> (balance (checking_base c) - a <? overdraft_limit c) = false ->
  Checking.withdraw now a c
  = mkOutcome
      (mkCheckingAccount
         (mkBankAccount (owner (checking_base c)) (balance (checking_base c) - a)
            (transactions (checking_base c) ++ [mkTransaction a "Withdrawal" now]))
         (overdraft_limit c))
      [[Lit "Withdrew "; Fmt2f a; Lit " from Checking Account. New balance: ";
        Fmt2f (balance (checking_base c) - a)]]
      (inr tt).
Proof. intros Ha Hb. unfold_methods. rewrite Ha. cbn [result final printed]. rewrite Hb. reflexivity. Qed.

Lemma bind_print {S A : Type} (l : line) (k : unit -> M S A) (s : S) :
  bind (print l) k s
  = mkOutcome (final (k tt s)) (l :: printed (k tt s)) (result (k tt s)).
Proof. reflexivity. Qed.

Lemma for_each_print {S : Type} (xs : list Transaction) (s : S) :
  for_each xs (fun transaction => print (Transaction_str transaction)) s
  = mkOutcome s (map Transaction_str xs) (inr tt).
Proof.
  induction xs as [| x xs IH]; [reflexivity |].
  cbn [for_each map]. rewrite bind_print, IH. reflexivity.
Qed.

Lemma get_transaction_history_eq (self : BankAccount) :
  get_transaction_history self
  = mkOutcome self
      (match transactions self with
       | [] => [[Lit "No transactions found."]]
       | _ :: _ => []
       end ++ map Transaction_str (transactions self))
      (inr tt).
Proof.
  unfold get_transaction_history, bind, get. cbn [result final printed].
  destruct (transactions self) as [| t ts].
  - rewrite for_each_print. reflexivity.
  - rewrite for_each_print. reflexivity.
Qed.

Lemma get_balance_eq (self : BankAccount) :
  get_balance self = mkOutcome self [] (inr (balance self)).
Proof. reflexivity. Qed.

Lemma savings_set_base_same (s : SavingsAccount) : savings_set_base (savings_base s) s = s.
Proof. destruct s; reflexivity. Qed.

Lemma checking_set_base_same (c : CheckingAccount) :
  checking_set_base (checking_base c) c = c.
Proof. destruct c; reflexivity. Qed.

(** One case per path of the method the goal mentions. *)
Ltac method_paths :=
  let Hg := fresh "Hguard" in
  let Hf := fresh "Hfloor" in
  match goal with
  | |- context [Savings.deposit ?now ?a ?s] =>
      destruct (a <=? 0) eqn:Hg;
      [ rewrite (Savings_deposit_rejected now a s Hg)
      | rewrite (Savings_deposit_accepted now a s Hg) ]
  | |- context [Savings.withdraw ?now ?a ?s] =>
      destruct (a <=? 0) eqn:Hg;
      [ rewrite (Savings_withdraw_rejected now a s Hg)
      | destruct (balance (savings_base s) <? a) eqn:Hf;
        [ rewrite (Savings_withdraw_insufficient now a s Hg Hf)
        | rewrite (Savings_withdraw_accepted now a s Hg Hf) ] ]
  | |- context [Savings.apply_interest ?now ?s] =>
      destruct (balance (savings_base s) * interest_rate s <=? 0) eqn:Hg;
      [ rewrite (Savings_apply_interest_rejected now s Hg)
      | rewrite (Savings_apply_interest_accepted now s Hg) ]
  | |- context [Checking.deposit ?now ?a ?c] =>
      destruct (a <=? 0) eqn:Hg;
      [ rewrite (Checking_deposit_rejected now a c Hg)
      | rewrite (Checking_deposit_accepted now a c Hg) ]
  | |- context [Checking.withdraw ?now ?a ?c] =>
      destruct (a <=? 0) eqn:Hg;
      [ rewrite (Checking_withdraw_rejected now a c Hg)
      | destruct (balance (checking_base c) - a <? overdraft_limit c) eqn:Hf;
        [ rewrite (Checking_withdraw_overdraft now a c Hg Hf)
        | rewrite (Checking_withdraw_accepted now a c Hg Hf) ] ]
  | |- context [savings_super get_balance ?s] =>
      unfold savings_super, zoom; rewrite get_balance_eq;
      cbn [final result printed]; rewrite savings_set_base_same
  | |- context [checking_super get_balance ?c] =>
      unfold checking_super, zoom; rewrite get_balance_eq;
      cbn [final result printed]; rewrite checking_set_base_same
  | |- context [savings_super get_transaction_history ?s] =>
      unfold savings_super, zoom; rewrite get_transaction_history_eq;
      cbn [final result printed]; rewrite savings_set_base_same
  | |- context [checking_super get_transaction_history ?c] =>
      unfold checking_super, zoom; rewrite get_transaction_history_eq;
      cbn [final result printed]; rewrite checking_set_base_same
  | |- _ => unfold raise
  end.

Ltac perform_paths c acct :=
  destruct c as [? | ? | | |]; destruct acct as [? | ?];
  unfold perform, deposit, withdraw, apply_interest, dispatch, forget, map_final;
  method_paths;
  unfold base, succeeded, succeeds, fails_with;
  cbn [final result printed savings_base checking_base owner balance transactions
       interest_rate overdraft_limit mutating andb record_of].

(** Which path a call takes is decided by its guards. *)
Ltac split_guard a :=
  let Ha := fresh "Ha" in destruct (a <=? 0) eqn:Ha.

Ltac on_account :=
  unfold deposit, withdraw, apply_interest, dispatch, map_final, base,
    fails_with, succeeds, succeeded;
  cbn [final result printed savings_base checking_base owner balance transactions
       interest_rate overdraft_limit].

(** ** One call

    What a single call, of any kind and on any path, does to the history
    and to the floor. *)

Lemma perform_history (c : call) (now : datetime) (acct : Account) :
  transactions (base (final (perform c now acct)))
  = transactions (base acct)
    ++ (if mutating c && succeeded (perform c now acct) then record_of c now acct else []).
Proof.
  perform_paths c acct; try (rewrite app_nil_r); reflexivity.
Qed.

Lemma perform_record_length (c : call) (now : datetime) (acct : Account) :
  mutating c && succeeded (perform c now acct) = true ->
  length (record_of c now acct) = 1%nat.
Proof.
  perform_paths c acct; intros H; try discriminate H; reflexivity.
Qed.

Lemma perform_floor (c : call) (now : datetime) (acct : Account) :
  below_floor acct = false -> below_floor (final (perform c now acct)) = false.
Proof.
  unfold below_floor.
  perform_paths c acct; intros Hfl; try exact Hfl.
  - apply Binary64.ltb_add_pos; assumption.
  - apply Binary64.ltb_add_pos; assumption.
  - apply Binary64.ltb_sub_le; assumption.
  - assumption.
  - apply Binary64.ltb_add_pos; assumption.
Qed.

(** * The claims *)

(** C1. For every account and every amount [a <= 0], [deposit(a)] and
    [withdraw(a)] fail with InvalidAmount, and the balance and the length
    of the transaction history are as before the call. *)
Theorem C1_nonpositive_amount_rejected :
  forall (acct : Account) (now : datetime) (a : float),
    (a <=? 0) = true ->
    (fails_with InvalidAmount (deposit now a acct) /\
     balance (base (final (deposit now a acct))) = balance (base acct) /\
     length (transactions (base (final (deposit now a acct))))
     = length (transactions (base acct))) /\
    (fails_with InvalidAmount (withdraw now a acct) /\
     balance (base (final (withdraw now a acct))) = balance (base acct) /\
     length (transactions (base (final (withdraw now a acct))))
     = length (transactions (base acct))).
Proof.
  intros acct now a Ha. destruct acct as [s | c]; unfold deposit, withdraw, dispatch.
  - rewrite (Savings_deposit_rejected now a s Ha), (Savings_withdraw_rejected now a s Ha).
    on_account. repeat split.
  - rewrite (Checking_deposit_rejected now a c Ha), (Checking_withdraw_rejected now a c Ha).
    on_account. repeat split.
Qed.

Lemma C1_nonpositive_amount_rejected_witness :
  ((-5) <=? 0) = true /\
  fails_with InvalidAmount (deposit 0%Z (-5) (SavingsObj alice)) /\
  fails_with InvalidAmount (withdraw 0%Z (-5) (SavingsObj alice)).
Proof.
  split; [reflexivity |].
  destruct (C1_nonpositive_amount_rejected (SavingsObj alice) 0%Z (-5) eq_refl)
    as [[Hd _] [Hw _]].
  split; [exact Hd | exact Hw].
Defined.

(** C2. For every account and every amount [a] such that [deposit(a)]
    succeeds, the new balance is the old balance plus [a], the history is
    one record longer, and the appended record has amount [a] and kind
    Deposit. *)
Theorem C2_deposit_credits_and_records :
  forall (acct : Account) (now : datetime) (a : float),
    succeeds (deposit now a acct) ->
    balance (base (final (deposit now a acct))) = balance (base acct) + a /\
    length (transactions (base (final (deposit now a acct))))
    = S (length (transactions (base acct))) /\
    exists t : Transaction,
      transactions (base (final (deposit now a acct))) = transactions (base acct) ++ [t] /\
      amount t = a /\ transaction_type t = "Deposit".
Proof.
  intros acct now a. split_guard a; destruct acct as [s | c]; unfold deposit, dispatch.
  - rewrite (Savings_deposit_rejected now a s Ha). on_account. contradiction.
  - rewrite (Checking_deposit_rejected now a c Ha). on_account. contradiction.
  - rewrite (Savings_deposit_accepted now a s Ha). on_account. intros _.
    split; [reflexivity |]. split; [rewrite length_app; cbn [length]; lia |].
    eexists. split; [reflexivity |]. split; reflexivity.
  - rewrite (Checking_deposit_accepted now a c Ha). on_account. intros _.
    split; [reflexivity |]. split; [rewrite length_app; cbn [length]; lia |].
    eexists. split; [reflexivity |]. split; reflexivity.
Qed.

Lemma C2_deposit_credits_and_records_witness :
  succeeds (deposit 0%Z 50 (SavingsObj alice)) /\
  balance (base (final (deposit 0%Z 50 (SavingsObj alice)))) = 150.
Proof.
  split; [exact I |].
  destruct (C2_deposit_credits_and_records (SavingsObj alice) 0%Z 50 I) as [Hb _].
  exact Hb.
Defined.

(** C3. For every account and every amount [a] such that [withdraw(a)]
    succeeds, the new balance is the old balance minus [a], the history is
    one record longer, and the appended record has amount [a] and kind
    Withdrawal. *)
Theorem C3_withdraw_debits_and_records :
  forall (acct : Account) (now : datetime) (a : float),
    succeeds (withdraw now a acct) ->
    balance (base (final (withdraw now a acct))) = balance (base acct) - a /\
    length (transactions (base (final (withdraw now a acct))))
    = S (length (transactions (base acct))) /\
    exists t : Transaction,
      transactions (base (final (withdraw now a acct))) = transactions (base acct) ++ [t] /\
      amount t = a /\ transaction_type t = "Withdrawal".
Proof.
  intros acct now a. split_guard a; destruct acct as [s | c]; unfold withdraw, dispatch.
  - rewrite (Savings_withdraw_rejected now a s Ha). on_account. contradiction.
  - rewrite (Checking_withdraw_rejected now a c Ha). on_account. contradiction.
  - destruct (balance (savings_base s) <? a) eqn:Hb.
    + rewrite (Savings_withdraw_insufficient now a s Ha Hb). on_account. contradiction.
    + rewrite (Savings_withdraw_accepted now a s Ha Hb). on_account. intros _.
      split; [reflexivity |]. split; [rewrite length_app; cbn [length]; lia |].
      eexists. split; [reflexivity |]. split; reflexivity.
  - destruct (balance (checking_base c) - a <? overdraft_limit c) eqn:Hb.
    + rewrite (Checking_withdraw_overdraft now a c Ha Hb). on_account. contradiction.
    + rewrite (Checking_withdraw_accepted now a c Ha Hb). on_account. intros _.
      split; [reflexivity |]. split; [rewrite length_app; cbn [length]; lia |].
      eexists. split; [reflexivity |]. split; reflexivity.
Qed.

Lemma C3_withdraw_debits_and_records_witness :
  succeeds (withdraw 0%Z 30 (SavingsObj alice)) /\
  balance (base (final (withdraw 0%Z 30 (SavingsObj alice)))) = 70.
Proof.
  split; [exact I |].
  destruct (C3_withdraw_debits_and_records (SavingsObj alice) 0%Z 30 I) as [Hb _].
  exact Hb.
Defined.

(** C4, as stated, fails: the claim has every boundary withdrawal
    [a == balance], [a > 0], leave the balance equal to 0.  On a savings
    account holding [inf], [withdraw(inf)] passes both guards and leaves
    [inf - inf], which is NaN and compares equal to nothing. *)
Lemma C4_boundary_not_zero_at_infinity :
  ~ (forall (s : SavingsAccount) (now : datetime) (a : float),
        (0 <? a) = true ->
        (a =? balance (savings_base s)) = true ->
        succeeds (Savings.withdraw now a s) /\
        (balance (savings_base (final (Savings.withdraw now a s))) =? 0) = true).
Proof.
  intros H.
  destruct (H (SavingsAccount_init "Alice" infinity 0.02) 0%Z infinity eq_refl eq_refl)
    as [_ Hzero].
  vm_compute in Hzero. discriminate Hzero.
Qed.

(** C4, amended. For every SavingsAccount with balance [b] and every
    amount [a > 0], [withdraw(a)] fails with InsufficientFunds if and only
    if [a > b]; the boundary case [a == b] succeeds, and leaves the
    balance exactly 0 when [a] is finite. *)
Theorem C4_savings_floor :
  forall (s : SavingsAccount) (now : datetime) (a : float),
    (0 <? a) = true ->
    (fails_with InsufficientFunds (Savings.withdraw now a s)
     <-> (balance (savings_base s) <? a) = true) /\
    ((a =? balance (savings_base s)) = true ->
     succeeds (Savings.withdraw now a s) /\
     (is_finite a = true ->
      balance (savings_base (final (Savings.withdraw now a s))) = 0)).
Proof.
  intros s now a Hpos.
  pose proof (Binary64.ltb_leb_false 0 a Hpos) as Ha.
  split.
  - destruct (balance (savings_base s) <? a) eqn:Hb.
    + rewrite (Savings_withdraw_insufficient now a s Ha Hb). on_account.
      split; reflexivity.
    + rewrite (Savings_withdraw_accepted now a s Ha Hb). on_account.
      split; [contradiction | discriminate].
  - intros Heq. pose proof (Binary64.eqb_gtb_false a _ Heq) as Hb.
    rewrite (Savings_withdraw_accepted now a s Ha Hb). on_account.
    split; [exact I |]. intros Hfin.
    assert (Hsame : balance (savings_base s) = a).
    { apply Prim2SF_inj. apply Binary64.eqb_positive_finite; assumption. }
    rewrite Hsame in Heq |- *.
    apply Binary64.sub_eq_zero; assumption.
Qed.

Lemma C4_savings_floor_witness :
  (0 <? 100) = true /\
  succeeds (Savings.withdraw 0%Z 100 alice) /\
  balance (savings_base (final (Savings.withdraw 0%Z 100 alice))) = 0.
Proof.
  split; [reflexivity |].
  destruct (C4_savings_floor alice 0%Z 100 eq_refl) as [_ Hb].
  destruct (Hb eq_refl) as [Hs Hz].
  split; [exact Hs | exact (Hz eq_refl)].
Defined.

(** C5. For every CheckingAccount with balance [b] and overdraft limit
    [L] and every amount [a > 0], [withdraw(a)] fails with
    OverdraftExceeded if and only if [b - a < L]; the boundary case
    [b - a == L] succeeds.  With [b = 0] and [L = -500], [withdraw(400)]
    succeeds and leaves -400, and a following [withdraw(200)] fails and
    leaves -400. *)
Theorem C5_checking_floor :
  forall (c : CheckingAccount) (now : datetime) (a : float),
    (0 <? a) = true ->
    (fails_with OverdraftExceeded (Checking.withdraw now a c)
     <-> (balance (checking_base c) - a <? overdraft_limit c) = true) /\
    ((balance (checking_base c) - a =? overdraft_limit c) = true ->
     succeeds (Checking.withdraw now a c)) /\
    (let first := Checking.withdraw now 400 bob in
     let second := Checking.withdraw now 200 (final first) in
     succeeds first /\ balance (checking_base (final first)) = -400 /\
     fails_with OverdraftExceeded second /\
     balance (checking_base (final second)) = -400).
Proof.
  intros c now a Hpos.
  pose proof (Binary64.ltb_leb_false 0 a Hpos) as Ha.
  split; [| split].
  - destruct (balance (checking_base c) - a <? overdraft_limit c) eqn:Hb.
    + rewrite (Checking_withdraw_overdraft now a c Ha Hb). on_account.
      split; reflexivity.
    + rewrite (Checking_withdraw_accepted now a c Ha Hb). on_account.
      split; [contradiction | discriminate].
  - intros Heq. pose proof (Binary64.eqb_ltb_false _ _ Heq) as Hb.
    rewrite (Checking_withdraw_accepted now a c Ha Hb). exact I.
  - cbv zeta.
    rewrite (Checking_withdraw_accepted now 400 bob eq_refl eq_refl).
    cbn [final].
    rewrite Checking_withdraw_overdraft by reflexivity.
    on_account. repeat split.
Qed.

Lemma C5_checking_floor_witness :
  (0 <? 500) = true /\
  (balance (checking_base bob) - 500 =? overdraft_limit bob) = true /\
  succeeds (Checking.withdraw 0%Z 500 bob).
Proof.
  split; [reflexivity |]. split; [reflexivity |].
  destruct (C5_checking_floor bob 0%Z 500 eq_refl) as (_ & Hb & _).
  exact (Hb eq_refl).
Defined.

(** C6, as stated, fails: the constructors take any initial balance, so
    the state reached by no call at all can already be below the floor:
    [SavingsAccount("Alice", -100.0)] has a negative balance and
    [CheckingAccount("Bob", -1000.0)] is below its limit of -500. *)
Lemma C6_constructed_below_floor :
  ~ (forall (owner : string) (b r : float) (calls : list (call * datetime)),
        below_floor (run calls (SavingsObj (SavingsAccount_init owner b r))) = false)
  /\
  ~ (forall (owner : string) (b l : float) (calls : list (call * datetime)),
        below_floor (run calls (CheckingObj (CheckingAccount_init owner b l))) = false).
Proof.
  split; intros H.
  - specialize (H "Alice" (-100) 0.02 []). vm_compute in H. discriminate H.
  - specialize (H "Bob" (-1000) (-500) []). vm_compute in H. discriminate H.
Qed.

(** C6, amended. From an account whose balance is not negative
    (savings), respectively not below its overdraft limit (checking),
    every sequence of calls leads to a state where that still holds. *)
Theorem C6_floor_invariant :
  forall (start : Account) (calls : list (call * datetime)),
    below_floor start = false ->
    below_floor (run calls start) = false.
Proof.
  intros start calls. revert start.
  induction calls as [| [c now] rest IH]; intros start Hstart; cbn [run].
  - exact Hstart.
  - apply IH. apply perform_floor. exact Hstart.
Qed.

Lemma C6_floor_invariant_witness :
  below_floor (SavingsObj alice) = false /\
  below_floor
    (run [(Deposit 50, 1%Z); (Withdraw 30, 2%Z); (ApplyInterest, 3%Z); (Withdraw 1000, 4%Z)]
         (SavingsObj alice)) = false.
Proof.
  split; [reflexivity |].
  apply (C6_floor_invariant (SavingsObj alice)). reflexivity.
Defined.

(** C7. For every SavingsAccount with balance [B] and interest rate [R],
    [apply_interest()] either credits [B*R] to the balance, appending one
    Deposit record of amount [B*R] (it does when [B*R > 0]), or fails
    with InvalidAmount and leaves the balance unchanged (it does when
    [B*R <= 0]). *)
Theorem C7_apply_interest :
  forall (s : SavingsAccount) (now : datetime),
    let interest := balance (savings_base s) * interest_rate s in
    let o := Savings.apply_interest now s in
    let credited :=
      succeeds o /\
      balance (savings_base (final o)) = balance (savings_base s) + interest /\
      transactions (savings_base (final o))
      = transactions (savings_base s) ++ [mkTransaction interest "Deposit" now] in
    let refused :=
      fails_with InvalidAmount o /\
      balance (savings_base (final o)) = balance (savings_base s) /\
      transactions (savings_base (final o)) = transactions (savings_base s) in
    ((0 <? interest) = true -> credited) /\
    ((interest <=? 0) = true -> refused) /\
    (credited \/ refused).
Proof.
  intros s now interest o credited refused.
  assert (Hacc : (interest <=? 0) = false -> credited).
  { intros Hi. unfold credited, o.
    rewrite (Savings_apply_interest_accepted now s Hi). on_account. repeat split. }
  assert (Hrej : (interest <=? 0) = true -> refused).
  { intros Hi. unfold refused, o.
    rewrite (Savings_apply_interest_rejected now s Hi). on_account. repeat split. }
  split; [| split].
  - intros Hpos. apply Hacc. apply Binary64.ltb_leb_false. exact Hpos.
  - exact Hrej.
  - destruct (interest <=? 0) eqn:Hi; [right; apply Hrej | left; apply Hacc]; reflexivity.
Qed.

Lemma C7_apply_interest_witness :
  (0 <? balance (savings_base alice) * interest_rate alice) = true /\
  succeeds (Savings.apply_interest 0%Z alice) /\
  balance (savings_base (final (Savings.apply_interest 0%Z alice))) = 102.
Proof.
  split; [reflexivity |].
  destruct (C7_apply_interest alice 0%Z) as [Hc _].
  destruct (Hc eq_refl) as (Hs & Hb & _).
  split; [exact Hs | exact Hb].
Defined.

(** C8. For every account and every sequence of calls, the transaction
    history grows by exactly the records of the successful deposits,
    withdrawals and interest accruals, in the order they were made; on an
    account as constructed (empty history) the history is that list, and
    its length is the number of those calls. *)
Theorem C8_history_is_the_log :
  forall (calls : list (call * datetime)),
    (forall acct : Account,
        transactions (base (run calls acct))
        = transactions (base acct) ++ records calls acct /\
        length (records calls acct) = successes calls acct) /\
    (forall (owner : string) (b r : float),
        let acct := SavingsObj (SavingsAccount_init owner b r) in
        transactions (base (run calls acct)) = records calls acct /\
        length (transactions (base (run calls acct))) = successes calls acct) /\
    (forall (owner : string) (b l : float),
        let acct := CheckingObj (CheckingAccount_init owner b l) in
        transactions (base (run calls acct)) = records calls acct /\
        length (transactions (base (run calls acct))) = successes calls acct).
Proof.
  intros calls.
  assert (Hgen : forall acct : Account,
             transactions (base (run calls acct))
             = transactions (base acct) ++ records calls acct /\
             length (records calls acct) = successes calls acct).
  { induction calls as [| [c now] rest IH]; intros acct; cbn [run records successes].
    - rewrite app_nil_r. split; reflexivity.
    - destruct (IH (final (perform c now acct))) as [Hh Hl].
      rewrite Hh, perform_history, <- app_assoc. split; [reflexivity |].
      rewrite length_app, Hl.
      destruct (mutating c && succeeded (perform c now acct)) eqn:Hs.
      + rewrite (perform_record_length c now acct Hs). reflexivity.
      + reflexivity. }
  split; [exact Hgen |].
  split; intros owner b x acct; destruct (Hgen acct) as [Hh Hl];
    (split; [rewrite Hh; reflexivity | rewrite Hh, <- Hl; reflexivity]).
Qed.

(** C9. For every account, [get_transaction_history()] prints the
    account's Transaction records in order and leaves the account as it
    was; on an empty history it prints "No transactions found." and
    returns normally. *)
Theorem C9_history_view :
  (forall self : BankAccount,
      get_transaction_history self
      = mkOutcome self
          (match transactions self with
           | [] => [[Lit "No transactions found."]]
           | _ :: _ => []
           end ++ map Transaction_str (transactions self))
          (inr tt)) /\
  (forall (acct : Account) (now : datetime),
      final (perform GetTransactionHistory now acct) = acct /\
      succeeds (perform GetTransactionHistory now acct)) /\
  (forall (owner : string) (b : float),
      get_transaction_history (BankAccount_init owner b)
      = mkOutcome (BankAccount_init owner b) [[Lit "No transactions found."]] (inr tt)).
Proof.
  split; [exact get_transaction_history_eq |]. split.
  - intros acct now. destruct acct as [s | c];
      unfold perform, dispatch, map_final, succeeds; method_paths;
      cbn [final result]; split; reflexivity.
  - intros owner b. rewrite get_transaction_history_eq. reflexivity.
Qed.

(** C10. Every call to [deposit], [withdraw] or [apply_interest],
    whether it succeeds or fails, leaves the owner unchanged, the
    interest rate of a SavingsAccount unchanged and the overdraft limit of
    a CheckingAccount unchanged. *)
Theorem C10_frame :
  forall (acct : Account) (now : datetime) (a : float),
    same_frame acct (final (deposit now a acct)) /\
    same_frame acct (final (withdraw now a acct)) /\
    same_frame acct (final (apply_interest now acct)).
Proof.
  intros acct now a. unfold same_frame.
  destruct acct as [s | c]; unfold deposit, withdraw, apply_interest, dispatch, map_final, base.
  - split; [| split]; method_paths; cbn; split; reflexivity.
  - split; [| split]; method_paths; cbn; split; reflexivity.
Qed.

(** * Further properties of the methods *)

Lemma perform_failure (c : call) (now : datetime) (acct : Account) :
  succeeded (perform c now acct) = false ->
  final (perform c now acct) = acct /\ printed (perform c now acct) = [].
Proof.
  perform_paths c acct; intros H; try discriminate H; split; reflexivity.
Qed.

(** X1. A call that fails, for whatever reason, leaves the account
    exactly as it was and prints nothing. *)
Theorem X1_failure_changes_nothing :
  forall (c : call) (now : datetime) (acct : Account),
    succeeded (perform c now acct) = false ->
    final (perform c now acct) = acct /\ printed (perform c now acct) = [].
Proof. exact perform_failure. Qed.

Lemma X1_failure_changes_nothing_witness :
  succeeded (perform (Withdraw 1000) 0%Z (SavingsObj alice)) = false /\
  final (perform (Withdraw 1000) 0%Z (SavingsObj alice)) = SavingsObj alice.
Proof.
  split; [reflexivity |].
  destruct (X1_failure_changes_nothing (Withdraw 1000) 0%Z (SavingsObj alice) eq_refl)
    as [Hf _].
  exact Hf.
Defined.

Lemma perform_query (c : call) (now : datetime) (acct : Account) :
  mutating c = false ->
  final (perform c now acct) = acct /\ succeeded (perform c now acct) = true.
Proof.
  perform_paths c acct; intros H; try discriminate H; split; reflexivity.
Qed.

(** X2. [get_balance] and [get_transaction_history] never fail, and
    dropping them from a sequence of calls does not change the account
    the sequence ends in. *)
Theorem X2_queries_do_not_matter :
  forall (calls : list (call * datetime)) (acct : Account),
    run (filter (fun cn => mutating (fst cn)) calls) acct = run calls acct /\
    Forall (fun cn => mutating (fst cn) = false ->
                      forall a : Account, succeeded (perform (fst cn) (snd cn) a) = true)
           calls.
Proof.
  intros calls acct. split.
  - revert acct. induction calls as [| [c now] rest IH]; intros acct; [reflexivity |].
    cbn [filter fst]. destruct (mutating c) eqn:Hm; cbn [run].
    + apply IH.
    + destruct (perform_query c now acct Hm) as [Hf _]. rewrite Hf. apply IH.
  - apply Forall_forall. intros [c now] _ Hm a. cbn [fst snd] in *.
    apply (perform_query c now a Hm).
Qed.

Lemma perform_replay (b0 : float) (c : call) (now : datetime) (acct : Account) :
  balance (base acct) = replay b0 (transactions (base acct)) ->
  balance (base (final (perform c now acct)))
  = replay b0 (transactions (base (final (perform c now acct)))).
Proof.
  unfold replay.
  perform_paths c acct; intros H; try exact H;
    rewrite fold_left_app, <- H; reflexivity.
Qed.

(** X3. The balance is always the opening balance with the recorded
    transactions applied in order, Deposits added and Withdrawals
    subtracted: any sequence of calls keeps this, and an account has it
    as constructed. *)
Theorem X3_history_replays_to_balance :
  (forall (b0 : float) (calls : list (call * datetime)) (acct : Account),
      balance (base acct) = replay b0 (transactions (base acct)) ->
      balance (base (run calls acct))
      = replay b0 (transactions (base (run calls acct)))) /\
  (forall (owner : string) (b0 r : float) (calls : list (call * datetime)),
      let acct := run calls (SavingsObj (SavingsAccount_init owner b0 r)) in
      balance (base acct) = replay b0 (transactions (base acct))) /\
  (forall (owner : string) (b0 l : float) (calls : list (call * datetime)),
      let acct := run calls (CheckingObj (CheckingAccount_init owner b0 l)) in
      balance (base acct) = replay b0 (transactions (base acct))).
Proof.
  assert (Hgen : forall b0 calls acct,
             balance (base acct) = replay b0 (transactions (base acct)) ->
             balance (base (run calls acct))
             = replay b0 (transactions (base (run calls acct)))).
  { intros b0 calls. induction calls as [| [c now] rest IH]; intros acct H; cbn [run].
    - exact H.
    - apply IH. apply perform_replay. exact H. }
  split; [exact Hgen |].
  split; intros owner b0 x calls acct; apply Hgen; reflexivity.
Qed.

Lemma X3_history_replays_to_balance_witness :
  balance (base (SavingsObj alice)) = replay 100 (transactions (base (SavingsObj alice))) /\
  balance (base (run [(Deposit 50, 1%Z); (Withdraw 30, 2%Z)] (SavingsObj alice)))
  = replay 100
      (transactions (base (run [(Deposit 50, 1%Z); (Withdraw 30, 2%Z)] (SavingsObj alice)))).
Proof.
  split; [reflexivity |].
  apply (proj1 X3_history_replays_to_balance 100
           [(Deposit 50, 1%Z); (Withdraw 30, 2%Z)] (SavingsObj alice)).
  reflexivity.
Defined.

Lemma perform_well_formed (c : call) (now : datetime) (acct : Account) :
  Forall well_formed_record (transactions (base acct)) ->
  Forall well_formed_record (transactions (base (final (perform c now acct)))).
Proof.
  perform_paths c acct; intros H; try exact H;
    (apply Forall_app; split; [exact H |]);
    (apply Forall_cons; [| apply Forall_nil]);
    (split; [first [left; reflexivity | right; reflexivity] | assumption]).
Qed.

(** X4. Every record the methods append has kind Deposit or Withdrawal
    and an amount that is not [<= 0]: a history that has only such
    records keeps having only such records, and the history of an account
    as constructed does. *)
Theorem X4_records_are_well_formed :
  (forall (calls : list (call * datetime)) (acct : Account),
      Forall well_formed_record (transactions (base acct)) ->
      Forall well_formed_record (transactions (base (run calls acct)))) /\
  (forall (owner : string) (b r : float) (calls : list (call * datetime)),
      Forall well_formed_record
        (transactions (base (run calls (SavingsObj (SavingsAccount_init owner b r)))))) /\
  (forall (owner : string) (b l : float) (calls : list (call * datetime)),
      Forall well_formed_record
        (transactions (base (run calls (CheckingObj (CheckingAccount_init owner b l)))))).
Proof.
  assert (Hgen : forall calls acct,
             Forall well_formed_record (transactions (base acct)) ->
             Forall well_formed_record (transactions (base (run calls acct)))).
  { intros calls. induction calls as [| [c now] rest IH]; intros acct H; cbn [run].
    - exact H.
    - apply IH. apply perform_well_formed. exact H. }
  split; [exact Hgen |].
  split; intros owner b x calls; apply Hgen; constructor.
Qed.

Lemma X4_records_are_well_formed_witness :
  Forall well_formed_record (transactions (base (SavingsObj alice))) /\
  Forall well_formed_record
    (transactions (base (run [(Deposit 50, 1%Z); (ApplyInterest, 2%Z)] (SavingsObj alice)))).
Proof.
  split; [constructor |].
  apply (proj1 X4_records_are_well_formed
           [(Deposit 50, 1%Z); (ApplyInterest, 2%Z)] (SavingsObj alice)).
  constructor.
Defined.

(** X5. The [amount <= 0] guard lets NaN through: [deposit(nan)] and
    [withdraw(nan)] succeed on every account, and the balance is NaN
    afterwards. *)
Theorem X5_nan_amount_is_accepted :
  forall (acct : Account) (now : datetime) (a : float),
    is_nan a = true ->
    (succeeds (deposit now a acct) /\
     is_nan (balance (base (final (deposit now a acct)))) = true) /\
    (succeeds (withdraw now a acct) /\
     is_nan (balance (base (final (withdraw now a acct)))) = true).
Proof.
  intros acct now a Hnan.
  pose proof (Binary64.leb_nan_l a 0 Hnan) as Ha.
  destruct acct as [s | c]; unfold deposit, withdraw, dispatch.
  - rewrite (Savings_deposit_accepted now a s Ha).
    rewrite (Savings_withdraw_accepted now a s Ha (Binary64.ltb_nan_r _ a Hnan)).
    on_account. repeat split.
    + apply Binary64.add_nan_r. exact Hnan.
    + apply Binary64.sub_nan_r. exact Hnan.
  - pose proof (Binary64.sub_nan_r (balance (checking_base c)) a Hnan) as Hsub.
    rewrite (Checking_deposit_accepted now a c Ha).
    rewrite (Checking_withdraw_accepted now a c Ha (Binary64.ltb_nan_l _ _ Hsub)).
    on_account. repeat split.
    + apply Binary64.add_nan_r. exact Hnan.
    + exact Hsub.
Qed.

Lemma X5_nan_amount_is_accepted_witness :
  is_nan nan = true /\ succeeds (deposit 0%Z nan (SavingsObj alice)).
Proof.
  split; [reflexivity |].
  destruct (X5_nan_amount_is_accepted (SavingsObj alice) 0%Z nan eq_refl) as [[Hd _] _].
  exact Hd.
Defined.

Lemma perform_nan (c : call) (now : datetime) (acct : Account) :
  is_nan (balance (base acct)) = true ->
  is_nan (balance (base (final (perform c now acct)))) = true.
Proof.
  perform_paths c acct; intros H; try exact H;
    first [apply Binary64.add_nan_l; exact H | apply Binary64.sub_nan_l; exact H].
Qed.

(** X6. A NaN balance stays: once the balance is NaN, it is NaN after
    every sequence of calls, and no withdrawal that passes the
    [amount <= 0] guard is refused any more. *)
Theorem X6_nan_balance_is_absorbing :
  forall (acct : Account),
    is_nan (balance (base acct)) = true ->
    (forall calls : list (call * datetime),
        is_nan (balance (base (run calls acct))) = true) /\
    (forall (now : datetime) (a : float),
        (a <=? 0) = false -> succeeds (withdraw now a acct)).
Proof.
  intros acct Hnan. split.
  - intros calls. revert acct Hnan.
    induction calls as [| [c now] rest IH]; intros acct Hnan; cbn [run].
    + exact Hnan.
    + apply IH. apply perform_nan. exact Hnan.
  - intros now a Ha. destruct acct as [s | c]; unfold withdraw, dispatch; cbn [base] in Hnan.
    + rewrite (Savings_withdraw_accepted now a s Ha (Binary64.ltb_nan_l _ a Hnan)).
      exact I.
    + pose proof (Binary64.sub_nan_l _ a Hnan) as Hsub.
      rewrite (Checking_withdraw_accepted now a c Ha (Binary64.ltb_nan_l _ _ Hsub)).
      exact I.
Qed.

Lemma X6_nan_balance_is_absorbing_witness :
  is_nan (balance (base (SavingsObj (SavingsAccount_init "Alice" nan 0.02)))) = true /\
  succeeds (withdraw 0%Z 1000000 (SavingsObj (SavingsAccount_init "Alice" nan 0.02))).
Proof.
  split; [reflexivity |].
  destruct (X6_nan_balance_is_absorbing
              (SavingsObj (SavingsAccount_init "Alice" nan 0.02)) eq_refl) as [_ Hw].
  exact (Hw 0%Z 1000000 eq_refl).
Defined.

(** X7. On a savings account whose balance is not negative, a
    successful [deposit(a)] can always be taken back: [withdraw(a)] right
    after it succeeds. *)
Theorem X7_deposit_can_be_withdrawn :
  forall (s : SavingsAccount) (now now' : datetime) (a : float),
    (balance (savings_base s) <? 0) = false ->
    succeeds (Savings.deposit now a s) ->
    succeeds (Savings.withdraw now' a (final (Savings.deposit now a s))).
Proof.
  intros s now now' a Hfloor. destruct (a <=? 0) eqn:Ha.
  - rewrite (Savings_deposit_rejected now a s Ha). intros H. contradiction H.
  - rewrite (Savings_deposit_accepted now a s Ha). intros _. cbn [final].
    rewrite Savings_withdraw_accepted.
    + exact I.
    + exact Ha.
    + cbn [savings_base balance]. apply Binary64.ltb_add_amount. exact Hfloor.
Qed.

Lemma X7_deposit_can_be_withdrawn_witness :
  (balance (savings_base alice) <? 0) = false /\
  succeeds (Savings.deposit 1%Z 50 alice) /\
  succeeds (Savings.withdraw 2%Z 50 (final (Savings.deposit 1%Z 50 alice))).
Proof.
  split; [reflexivity |]. split; [exact I |].
  apply (X7_deposit_can_be_withdrawn alice 1%Z 2%Z 50 eq_refl I).
Defined.

(** X8. Whatever the amount and whether or not the call succeeds, a
    [deposit] never leaves the balance lower than it was and a [withdraw]
    never leaves it higher. *)
Theorem X8_deposit_up_withdraw_down :
  forall (acct : Account) (now : datetime) (a : float),
    (balance (base (final (deposit now a acct))) <? balance (base acct)) = false /\
    (balance (base acct) <? balance (base (final (withdraw now a acct)))) = false.
Proof.
  intros acct now a.
  destruct acct as [s | c]; unfold deposit, withdraw, dispatch, map_final, base; split;
    method_paths;
    cbn [final savings_base checking_base balance];
    first [ apply Binary64.ltb_irrefl
          | apply Binary64.ltb_add_pos; [apply Binary64.ltb_irrefl | assumption]
          | apply Binary64.ltb_sub_pos; assumption ].
Qed.

(** * Properties of [main] *)

(** ** Rules for commands *)

Lemma wp_bind {A B : Type} (m : IO A) (k : A -> IO B) (Q : World -> stop + B -> Prop)
      (w : World) :
  wp m (fun w' r => match r with
                    | inl s => Q w' (inl s)
                    | inr a => wp (k a) Q w'
                    end) w ->
  wp (io_bind m k) Q w.
Proof.
  unfold wp, io_bind. destruct (m w) as [w' [s | a]]; cbn [fst snd]; intros H; exact H.
Qed.

Lemma wp_ret {A : Type} (a : A) (Q : World -> stop + A -> Prop) (w : World) :
  Q w (inr a) -> wp (io_ret a) Q w.
Proof. intros H. exact H. Qed.

Lemma wp_raise {A : Type} (e : exn) (Q : World -> stop + A -> Prop) (w : World) :
  Q w (inl (Uncaught e)) -> wp (io_raise e) Q w.
Proof. intros H. exact H. Qed.

Lemma wp_print (l : line) (Q : World -> stop + unit -> Prop) (w : World) :
  Q (mkWorld (stdin w) (stdout w ++ [Printed l]) (accounts w) (clock_reads w)) (inr tt) ->
  wp (io_print l) Q w.
Proof. intros H. exact H. Qed.

Lemma wp_input (prompt : string) (Q : World -> stop + string -> Prop) (w : World) :
  match stdin w with
  | [] => Q (mkWorld [] (stdout w ++ [Prompt prompt]) (accounts w) (clock_reads w))
            (inl EOFError)
  | l :: rest =>
      Q (mkWorld rest (stdout w ++ [Prompt prompt]) (accounts w) (clock_reads w)) (inr l)
  end ->
  wp (input prompt) Q w.
Proof. unfold wp, input. destruct (stdin w); intros H; exact H. Qed.

Lemma wp_float_input (env : Builtins) (prompt : string)
      (Q : World -> stop + float -> Prop) (w : World) :
  match stdin w with
  | [] => Q (mkWorld [] (stdout w ++ [Prompt prompt]) (accounts w) (clock_reads w))
            (inl EOFError)
  | l :: rest =>
      let w' := mkWorld rest (stdout w ++ [Prompt prompt]) (accounts w) (clock_reads w) in
      match py_float env l with
      | Some x => Q w' (inr x)
      | None => Q w' (inl (Uncaught (ValueError (py_float_error env l))))
      end
  end ->
  wp (float_input env prompt) Q w.
Proof.
  unfold wp, float_input, io_bind, input.
  destruct (stdin w) as [| l rest]; [intros H; exact H |].
  cbv zeta. destruct (py_float env l); intros H; exact H.
Qed.

Lemma wp_set_account (owner : string) (account : Account)
      (Q : World -> stop + unit -> Prop) (w : World) :
  Q (mkWorld (stdin w) (stdout w) (dict_set owner account (accounts w)) (clock_reads w))
    (inr tt) ->
  wp (set_account owner account) Q w.
Proof. intros H. exact H. Qed.

Lemma wp_with_account (owner : string) (found : Account -> IO unit) (missing : line)
      (Q : World -> stop + unit -> Prop) (w : World) :
  match accounts w owner with
  | Some acct => wp (found acct) Q w
  | None => wp (io_print missing) Q w
  end ->
  wp (with_account owner found missing) Q w.
Proof. unfold wp, with_account. destruct (accounts w owner); intros H; exact H. Qed.

Lemma wp_call_method (env : Builtins) (owner : string) (acct : Account) (c : call)
      (Q : World -> stop + unit -> Prop) (w : World) :
  (let o := perform c (py_now env (clock_reads w)) acct in
   Q (mkWorld (stdin w) (stdout w ++ map Printed (printed o))
        (dict_set owner (final o) (accounts w))
        (clock_reads w + (if mutating c && succeeded o then 1 else 0)))
     match result o with
     | inl e => inl (Uncaught e)
     | inr _ => inr tt
     end) ->
  wp (call_method env owner acct c) Q w.
Proof. intros H. exact H. Qed.

Lemma wp_print_balance (owner : string) (acct : Account)
      (Q : World -> stop + unit -> Prop) (w : World) :
  Q (mkWorld (stdin w)
       ((stdout w ++ []) ++ [Printed [Lit "Balance: "; Fmt2f (balance (base acct))]])
       (dict_set owner acct (accounts w)) (clock_reads w))
    (inr tt) ->
  wp (print_balance owner acct) Q w.
Proof.
  unfold wp, print_balance, dispatch, map_final.
  destruct acct as [s | c]; method_paths; cbn [result printed final map base];
    unfold io_print; cbn [fst snd stdin stdout accounts clock_reads]; intros H; exact H.
Qed.

Ltac wp_simpl := cbn [stdin stdout accounts clock_reads].

Ltac wp_step :=
  first
    [ apply wp_bind
    | apply wp_ret
    | apply wp_raise
    | apply wp_print
    | apply wp_set_account
    | apply wp_print_balance
    | apply wp_call_method ];
  wp_simpl.

Lemma wp_print_menu (Q : World -> stop + unit -> Prop) (w : World) :
  (forall w', same_state w w' -> Q w' (inr tt)) -> wp print_menu Q w.
Proof.
  intros H. unfold print_menu. repeat wp_step.
  apply H. unfold same_state. cbn [stdin accounts clock_reads]. auto.
Qed.

(** The turn reads its choice after the menu. *)
Lemma wp_main_body (env : Builtins) (Q : World -> stop + bool -> Prop) (w : World) :
  (forall w', same_state w w' ->
     match stdin w with
     | [] => Q (mkWorld [] (stdout w' ++ [Prompt "Select an option: "]) (accounts w)
                  (clock_reads w)) (inl EOFError)
     | choice :: rest =>
         wp (main_choice env choice) Q
            (mkWorld rest (stdout w' ++ [Prompt "Select an option: "]) (accounts w)
               (clock_reads w))
     end) ->
  wp (main_body env) Q w.
Proof.
  intros H. unfold main_body. apply wp_bind. apply wp_print_menu.
  intros w' Hs. specialize (H w' Hs). destruct Hs as (Hin & Hacc & Hclk).
  apply wp_bind. apply wp_input. rewrite Hin, Hacc, Hclk.
  destruct (stdin w); exact H.
Qed.

Ltac destruct_scrutinee x := first [is_var x; destruct x | destruct x eqn:?].

Ltac wp_auto :=
  repeat
    (first
       [ apply wp_float_input; wp_simpl;
         try match goal with
             | |- match ?l with [] => _ | _ :: _ => _ end => destruct_scrutinee l
             end;
         cbv zeta;
         try match goal with
             | |- match py_float ?e ?s with Some _ => _ | None => _ end =>
                 destruct (py_float e s) eqn:?
             end
       | apply wp_input; wp_simpl;
         try match goal with
             | |- match ?l with [] => _ | _ :: _ => _ end => destruct_scrutinee l
             end
       | apply wp_with_account; wp_simpl;
         try match goal with
             | |- match ?d ?k with Some _ => _ | None => _ end => destruct (d k) eqn:?
             end
       | match goal with
         | |- wp (match ?a with SavingsObj _ => _ | CheckingObj _ => _ end) _ _ =>
             destruct a
         | |- match match result ?o with inl _ => _ | inr _ => _ end with
              | inl _ => _
              | inr _ => _
              end =>
             destruct (result o) eqn:?
         end
       | wp_step ]).

(** The nine cases of [main_choice]. *)
Ltac choice_cases env choice :=
  unfold main_choice;
  destruct (choice =? "1")%string eqn:?;
  [ | destruct (choice =? "2")%string eqn:?;
  [ | destruct (choice =? "3")%string eqn:?;
  [ | destruct (choice =? "4")%string eqn:?;
  [ | destruct (choice =? "5")%string eqn:?;
  [ | destruct (choice =? "6")%string eqn:?;
  [ | destruct (choice =? "7")%string eqn:?;
  [ | destruct (choice =? "8")%string eqn:? ] ] ] ] ] ] ].

(** ** Every turn reads a line *)

Lemma main_choice_reads (env : Builtins) (choice : string) (w : World) :
  wp (main_choice env choice)
     (fun w' _ => exists pre, stdin w = pre ++ stdin w') w.
Proof.
  choice_cases env choice; wp_auto; cbv beta; wp_simpl;
    try match goal with H : stdin w = _ |- _ => rewrite H end;
    first [ exists (@nil string); reflexivity
          | eexists [_]; reflexivity
          | eexists [_; _]; reflexivity ].
Qed.

Lemma wp_weaken {A : Type} (m : IO A) (Q Q' : World -> stop + A -> Prop) (w : World) :
  wp m Q w -> (forall w' r, Q w' r -> Q' w' r) -> wp m Q' w.
Proof. unfold wp. intros H HQ. apply HQ. exact H. Qed.

Lemma main_body_reads (env : Builtins) (w : World) :
  wp (main_body env)
     (fun w' r =>
        match r with
        | inl _ => True
        | inr _ => exists choice pre, stdin w = choice :: pre ++ stdin w'
        end) w.
Proof.
  apply wp_main_body. intros w1 _. destruct (stdin w) as [| choice rest]; [exact I |].
  eapply wp_weaken; [apply main_choice_reads |].
  cbn [stdin]. intros w' r [pre Hpre]. destruct r; [exact I |].
  exists choice, pre. rewrite Hpre. reflexivity.
Qed.

Lemma main_loop_ends (env : Builtins) (fuel : nat) (w : World) :
  (length (stdin w) < fuel)%nat -> snd (main_loop env fuel w) <> OutOfFuel.
Proof.
  revert w. induction fuel as [| fuel IH]; intros w Hlen; [lia |].
  cbn [main_loop]. pose proof (main_body_reads env w) as Hr. unfold wp in Hr.
  destruct (main_body env w) as [w' [s | [|]]]; cbn [fst snd] in *; try discriminate.
  destruct Hr as (choice & pre & Hpre). apply IH.
  rewrite Hpre in Hlen. cbn [length] in Hlen. rewrite length_app in Hlen. lia.
Qed.

(** X9. [main] ends on every input: it leaves through option 8, dies of
    an exception nobody catches, or meets the end of standard input; each
    turn of the loop reads at least one line. *)
Theorem X9_main_ends :
  forall (env : Builtins) (lines : list string),
    snd (main env lines) <> OutOfFuel.
Proof.
  intros env lines. unfold main, io_print. cbn [stdin stdout accounts clock_reads].
  apply main_loop_ends. cbn [stdin]. lia.
Qed.

Lemma main_choice_break (env : Builtins) (choice : string) (w : World) :
  wp (main_choice env choice)
     (fun w' r => r = inr true -> choice = "8" /\ stdin w' = stdin w) w.
Proof.
  choice_cases env choice; wp_auto; cbv beta; wp_simpl; intros H; try discriminate H.
  split; [apply String.eqb_eq; assumption | reflexivity].
Qed.

Lemma main_loop_exit (env : Builtins) (fuel : nat) (w : World) :
  snd (main_loop env fuel w) = Exited ->
  exists pre, stdin w = pre ++ "8" :: stdin (fst (main_loop env fuel w)).
Proof.
  revert w. induction fuel as [| fuel IH]; intros w; [discriminate |].
  cbn [main_loop].
  pose proof (main_body_reads env w) as Hr. unfold wp in Hr.
  assert (Hb : wp (main_body env)
                  (fun w' r => r = inr true -> stdin w = "8" :: stdin w') w).
  { apply wp_main_body. intros w1 _. destruct (stdin w) as [| choice rest].
    - discriminate.
    - eapply wp_weaken; [apply main_choice_break |].
      cbn [stdin]. intros w' r H Hr'. destruct (H Hr') as [-> ->]. reflexivity. }
  unfold wp in Hb.
  destruct (main_body env w) as [w' [s | [|]]]; cbn [fst snd] in *; try discriminate.
  - intros _. exists []. apply Hb. reflexivity.
  - intros H. destruct (IH w' H) as [pre Hpre].
    destruct Hr as (choice & pre' & Hpre').
    exists (choice :: pre' ++ pre). rewrite Hpre', Hpre.
    rewrite <- app_comm_cons, <- app_assoc. reflexivity.
Qed.

(** X10. [main] returns normally only by reading 8 as a choice, and
    stops reading there: the input is what was read, then 8, then what is
    left unread. *)
Theorem X10_main_exits_through_8 :
  forall (env : Builtins) (lines : list string),
    snd (main env lines) = Exited ->
    exists pre, lines = pre ++ "8" :: stdin (fst (main env lines)).
Proof.
  intros env lines. unfold main, io_print. cbn [stdin stdout accounts clock_reads].
  intros H. apply main_loop_exit in H. exact H.
Qed.

Lemma X10_main_exits_through_8_witness :
  snd (main sample_env ["9"; "8"; "1"]) = Exited /\
  exists pre, ["9"; "8"; "1"] = pre ++ "8" :: stdin (fst (main sample_env ["9"; "8"; "1"])).
Proof.
  split; [reflexivity |].
  apply (X10_main_exits_through_8 sample_env ["9"; "8"; "1"]). reflexivity.
Defined.

(** ** What [main] can die of *)






(** ** What [main] keeps true of its accounts *)

Lemma dict_set_same (k : string) (v : Account) (d : dict) : dict_set k v d k = Some v.
Proof. unfold dict_set. rewrite String.eqb_refl. reflexivity. Qed.

Lemma dict_set_other (k k' : string) (v : Account) (d : dict) :
  k' <> k -> dict_set k v d k' = d k'.
Proof.
  intros H. unfold dict_set. destruct (String.eqb_spec k' k); [contradiction | reflexivity].
Qed.

Lemma dict_set_stored (k : string) (v : Account) (d : dict) :
  d k = Some v -> forall k', dict_set k v d k' = d k'.
Proof.
  intros H k'. unfold dict_set. destruct (String.eqb_spec k' k) as [-> |];
    [symmetry; exact H | reflexivity].
Qed.

Section DirectoryInvariant.

Variable P : string -> Account -> Prop.
Hypothesis P_savings : forall k b, P k (SavingsObj (SavingsAccount_init k b 0.02)).
Hypothesis P_checking : forall k b, P k (CheckingObj (CheckingAccount_init k b (-500))).
Hypothesis P_perform :
  forall k acct c now, P k acct -> P k (final (perform c now acct)).

Lemma all_accounts_set (k : string) (v : Account) (w : World)
      (i : list string) (o : list output) (n : nat) :
  all_accounts P w -> P k v ->
  all_accounts P (mkWorld i o (dict_set k v (accounts w)) n).
Proof.
  intros Hall Hv k' acct. cbn [accounts]. unfold dict_set.
  destruct (String.eqb_spec k' k) as [-> | Hne].
  - intros H. injection H as <-. exact Hv.
  - apply Hall.
Qed.

Lemma main_choice_keeps (env : Builtins) (choice : string) (w : World) :
  all_accounts P w ->
  wp (main_choice env choice) (fun w' _ => all_accounts P w') w.
Proof.
  intros Hall.
  choice_cases env choice; wp_auto; cbv beta; wp_simpl;
    first
      [ exact Hall
      | apply all_accounts_set; [exact Hall |];
        first [ apply P_savings
              | apply P_checking
              | apply P_perform; eapply Hall; eassumption
              | eapply Hall; eassumption ] ].
Qed.

Lemma main_loop_keeps (env : Builtins) (fuel : nat) (w : World) :
  all_accounts P w -> all_accounts P (fst (main_loop env fuel w)).
Proof.
  revert w. induction fuel as [| fuel IH]; intros w Hall; [exact Hall |].
  cbn [main_loop].
  assert (Hb : wp (main_body env) (fun w' _ => all_accounts P w') w).
  { apply wp_main_body. intros w1 _. destruct (stdin w) as [| choice rest].
    - exact Hall.
    - apply main_choice_keeps. exact Hall. }
  unfold wp in Hb.
  destruct (main_body env w) as [w' [s | [|]]]; cbn [fst snd] in *; try exact Hb.
  apply IH. exact Hb.
Qed.

Lemma main_keeps (env : Builtins) (lines : list string) :
  all_accounts P (fst (main env lines)).
Proof.
  unfold main, io_print. cbn [stdin stdout accounts clock_reads].
  apply main_loop_keeps. intros k acct H. discriminate H.
Qed.

End DirectoryInvariant.

Lemma perform_frame (c : call) (now : datetime) (acct : Account) :
  same_frame acct (final (perform c now acct)).
Proof.
  unfold same_frame. perform_paths c acct; split; reflexivity.
Qed.

(** X12. In every state [main] reaches, each account of the dict is
    stored under its owner's name, a savings account has the default
    interest rate 0.02 and a checking account the default overdraft limit
    -500, and its history holds well-formed records only. *)
Theorem X12_main_directory :
  forall (env : Builtins) (lines : list string) (k : string) (acct : Account),
    accounts (fst (main env lines)) k = Some acct ->
    owner (base acct) = k /\
    match acct with
    | SavingsObj s => interest_rate s = 0.02
    | CheckingObj c => overdraft_limit c = -500
    end /\
    Forall well_formed_record (transactions (base acct)).
Proof.
  intros env lines.
  apply (main_keeps
           (fun k acct =>
              owner (base acct) = k /\
              match acct with
              | SavingsObj s => interest_rate s = 0.02
              | CheckingObj c => overdraft_limit c = -500
              end /\
              Forall well_formed_record (transactions (base acct)))).
  - intros k b. repeat split. constructor.
  - intros k b. repeat split. constructor.
  - intros k acct c now (Ho & Hp & Hr).
    destruct (perform_frame c now acct) as [Ho' Hp'].
    split; [congruence |]. split.
    + revert Hp Hp'.
      destruct acct as [s | c0]; destruct (final (perform c now _)) as [s' | c'];
        intros Hp Hp'; try contradiction; congruence.
    + apply perform_well_formed. exact Hr.
Qed.

Lemma X12_main_directory_witness :
  accounts (fst (main sample_env ["1"; "Alice"; "100"; "3"; "Alice"; "50"; "8"])) "Alice"
  = Some (final (deposit 0%Z 50 (SavingsObj alice))) /\
  owner (base (final (deposit 0%Z 50 (SavingsObj alice)))) = "Alice".
Proof.
  assert (H : accounts
                (fst (main sample_env ["1"; "Alice"; "100"; "3"; "Alice"; "50"; "8"]))
                "Alice"
              = Some (final (deposit 0%Z 50 (SavingsObj alice)))) by reflexivity.
  split; [exact H |].
  destruct (X12_main_directory _ _ _ _ H) as [Ho _]. exact Ho.
Defined.

(** ** Single turns of the menu *)

Ltac wrong_choice :=
  match goal with
  | H : (_ =? _)%string = _ |- _ => vm_compute in H; discriminate H
  end.

(** X13. An exception of [deposit] or [withdraw] is not caught: when
    the method called for option 3 or 4 raises, [main] ends there with
    that exception, the account as it was and the rest of the input
    unread. *)
Theorem X13_method_error_ends_main :
  forall (env : Builtins) (fuel : nat) (w : World) (choice owner amt : string)
         (rest : list string) (acct : Account) (a : float) (c : call) (e : exn),
    stdin w = choice :: owner :: amt :: rest ->
    (choice = "3" /\ c = Deposit a) \/ (choice = "4" /\ c = Withdraw a) ->
    accounts w owner = Some acct ->
    py_float env amt = Some a ->
    result (perform c (py_now env (clock_reads w)) acct) = inl e ->
    snd (main_loop env (S fuel) w) = Stopped (Uncaught e) /\
    stdin (fst (main_loop env (S fuel) w)) = rest /\
    accounts (fst (main_loop env (S fuel) w)) owner = Some acct.
Proof.
  intros env fuel w choice owner amt rest acct a c e Hin Hc Hacc Hfl He.
  assert (Hfail : final (perform c (py_now env (clock_reads w)) acct) = acct).
  { apply perform_failure. unfold succeeded. rewrite He. reflexivity. }
  assert (Hb : wp (main_body env)
                  (fun w' r => r = inl (Uncaught e) /\ stdin w' = rest /\
                               accounts w' owner = Some acct) w).
  { apply wp_main_body. intros w1 _. rewrite Hin.
    destruct Hc as [[-> ->] | [-> ->]];
      [choice_cases env "3" | choice_cases env "4"]; try wrong_choice;
      wp_auto; cbv beta; wp_simpl; try congruence;
      match goal with
      | H : accounts w owner = Some ?x, H' : py_float env amt = Some ?y |- _ =>
          assert (x = acct) by congruence; assert (y = a) by congruence; subst x y
      end;
      try congruence;
      repeat split; try congruence; rewrite dict_set_same; congruence. }
  unfold wp in Hb. cbn [main_loop].
  destruct (main_body env w) as [w' r]. cbn [fst snd] in Hb.
  destruct Hb as (-> & Hs & Ha). cbn [fst snd]. auto.
Qed.

Lemma X13_method_error_ends_main_witness :
  snd (main_loop sample_env 1 (sample_world ["3"; "Alice"; "-5"; "8"]))
  = Stopped (Uncaught (ValueError "Deposit amount must be positive.")) /\
  stdin (fst (main_loop sample_env 1 (sample_world ["3"; "Alice"; "-5"; "8"]))) = ["8"].
Proof.
  destruct (X13_method_error_ends_main sample_env 0
              (sample_world ["3"; "Alice"; "-5"; "8"]) "3" "Alice" "-5" ["8"]
              (SavingsObj alice) (-5) (Deposit (-5))
              (ValueError "Deposit amount must be positive.")
              eq_refl (or_introl (conj eq_refl eq_refl)) eq_refl eq_refl eq_refl)
    as (Hend & Hrest & _).
  split; [exact Hend | exact Hrest].
Defined.

(** X14. Options 3 to 7 on a name that is not in the dict change
    nothing: the turn prints that the account was not found, asks for no
    amount, and the loop goes on. *)
Theorem X14_missing_account :
  forall (env : Builtins) (w : World) (choice owner : string) (rest : list string),
    stdin w = choice :: owner :: rest ->
    In choice ["3"; "4"; "5"; "6"; "7"] ->
    accounts w owner = None ->
    snd (main_body env w) = inr false /\
    stdin (fst (main_body env w)) = rest /\
    accounts (fst (main_body env w)) = accounts w /\
    clock_reads (fst (main_body env w)) = clock_reads w /\
    last (stdout (fst (main_body env w))) (Prompt "")
    = Printed [Lit (if (choice =? "7")%string then "Savings account not found."
                    else "Account not found.")].
Proof.
  intros env w choice owner rest Hin Hc Hacc.
  change (wp (main_body env)
            (fun w' r =>
               r = inr false /\ stdin w' = rest /\ accounts w' = accounts w /\
               clock_reads w' = clock_reads w /\
               last (stdout w') (Prompt "")
               = Printed [Lit (if (choice =? "7")%string
                               then "Savings account not found."
                               else "Account not found.")]) w).
  apply wp_main_body. intros w1 _. rewrite Hin.
  cbn [In] in Hc.
  destruct Hc as [<- | [<- | [<- | [<- | [<- | []]]]]];
    [ choice_cases env "3" | choice_cases env "4" | choice_cases env "5"
    | choice_cases env "6" | choice_cases env "7" ];
    try wrong_choice; wp_auto; cbv beta; wp_simpl; try congruence;
    repeat split; apply last_last.
Qed.

Lemma X14_missing_account_witness :
  snd (main_body sample_env (sample_world ["4"; "Bob"; "50"])) = inr false /\
  stdin (fst (main_body sample_env (sample_world ["4"; "Bob"; "50"]))) = ["50"].
Proof.
  destruct (X14_missing_account sample_env (sample_world ["4"; "Bob"; "50"])
              "4" "Bob" ["50"] eq_refl (or_intror (or_introl eq_refl)) eq_refl)
    as (Hr & Hs & _).
  split; [exact Hr | exact Hs].
Defined.

(** X15. Option 7 on a checking account is turned down by [main], not
    by the object: the turn prints "Savings account not found.", calls no
    method and raises nothing. *)
Theorem X15_interest_on_checking :
  forall (env : Builtins) (w : World) (owner : string) (rest : list string)
         (c : CheckingAccount),
    stdin w = "7" :: owner :: rest ->
    accounts w owner = Some (CheckingObj c) ->
    snd (main_body env w) = inr false /\
    stdin (fst (main_body env w)) = rest /\
    accounts (fst (main_body env w)) = accounts w /\
    clock_reads (fst (main_body env w)) = clock_reads w /\
    last (stdout (fst (main_body env w))) (Prompt "")
    = Printed [Lit "Savings account not found."].
Proof.
  intros env w owner rest c Hin Hacc.
  change (wp (main_body env)
            (fun w' r =>
               r = inr false /\ stdin w' = rest /\ accounts w' = accounts w /\
               clock_reads w' = clock_reads w /\
               last (stdout w') (Prompt "")
               = Printed [Lit "Savings account not found."]) w).
  apply wp_main_body. intros w1 _. rewrite Hin.
  choice_cases env "7"; try wrong_choice; wp_auto; cbv beta; wp_simpl; try congruence;
    repeat split; apply last_last.
Qed.

Lemma X15_interest_on_checking_witness :
  snd (main_body sample_env
         (mkWorld ["7"; "Bob"] [] (dict_set "Bob" (CheckingObj bob) dict_empty) 0))
  = inr false.
Proof.
  destruct (X15_interest_on_checking sample_env
              (mkWorld ["7"; "Bob"] [] (dict_set "Bob" (CheckingObj bob) dict_empty) 0)
              "Bob" [] bob eq_refl eq_refl) as (Hr & _).
  exact Hr.
Defined.

(** X16. Options 1 and 2 store a new account under the name given,
    whatever was stored there before: the new account has the balance
    typed, the default parameter of its class and an empty history, and
    the other accounts are untouched. *)
Theorem X16_create_replaces :
  forall (env : Builtins) (w : World) (choice owner bal : string) (rest : list string)
         (b : float),
    stdin w = choice :: owner :: bal :: rest ->
    choice = "1" \/ choice = "2" ->
    py_float env bal = Some b ->
    snd (main_body env w) = inr false /\
    stdin (fst (main_body env w)) = rest /\
    accounts (fst (main_body env w)) owner
    = Some (if (choice =? "1")%string
            then SavingsObj (SavingsAccount_init owner b 0.02)
            else CheckingObj (CheckingAccount_init owner b (-500))) /\
    (forall k, k <> owner -> accounts (fst (main_body env w)) k = accounts w k).
Proof.
  intros env w choice owner bal rest b Hin Hc Hfl.
  change (wp (main_body env)
            (fun w' r =>
               r = inr false /\ stdin w' = rest /\
               accounts w' owner
               = Some (if (choice =? "1")%string
                       then SavingsObj (SavingsAccount_init owner b 0.02)
                       else CheckingObj (CheckingAccount_init owner b (-500))) /\
               (forall k, k <> owner -> accounts w' k = accounts w k)) w).
  apply wp_main_body. intros w1 _. rewrite Hin.
  destruct Hc as [-> | ->]; [choice_cases env "1" | choice_cases env "2"];
    try wrong_choice; wp_auto; cbv beta; wp_simpl; try congruence;
    match goal with
    | H : py_float env bal = Some ?y |- _ => assert (y = b) by congruence; subst y
    end;
    (split; [reflexivity |]); (split; [reflexivity |]);
    unfold io_print, set_account; cbn [fst snd accounts];
    (split; [rewrite dict_set_same; reflexivity |]);
    intros k Hk; apply dict_set_other; exact Hk.
Qed.

Lemma X16_create_replaces_witness :
  accounts (fst (main_body sample_env (sample_world ["2"; "Alice"; "50"]))) "Alice"
  = Some (CheckingObj (CheckingAccount_init "Alice" 50 (-500))).
Proof.
  destruct (X16_create_replaces sample_env (sample_world ["2"; "Alice"; "50"])
              "2" "Alice" "50" [] 50 eq_refl (or_intror eq_refl) eq_refl)
    as (_ & _ & Ha & _).
  exact Ha.
Defined.

(** X17. A choice other than 1 to 8 changes nothing: the turn prints
    "Invalid option. Please try again." and the loop goes on. *)
Theorem X17_invalid_option :
  forall (env : Builtins) (w : World) (choice : string) (rest : list string),
    stdin w = choice :: rest ->
    ~ In choice ["1"; "2"; "3"; "4"; "5"; "6"; "7"; "8"] ->
    snd (main_body env w) = inr false /\
    stdin (fst (main_body env w)) = rest /\
    accounts (fst (main_body env w)) = accounts w /\
    clock_reads (fst (main_body env w)) = clock_reads w /\
    last (stdout (fst (main_body env w))) (Prompt "")
    = Printed [Lit "Invalid option. Please try again."].
Proof.
  intros env w choice rest Hin Hc.
  change (wp (main_body env)
            (fun w' r =>
               r = inr false /\ stdin w' = rest /\ accounts w' = accounts w /\
               clock_reads w' = clock_reads w /\
               last (stdout w') (Prompt "")
               = Printed [Lit "Invalid option. Please try again."]) w).
  apply wp_main_body. intros w1 _. rewrite Hin.
  choice_cases env choice;
    try (exfalso; apply Hc;
         match goal with
         | H : (choice =? _)%string = true |- _ => apply String.eqb_eq in H; rewrite H
         end;
         cbn [In]; tauto).
  wp_auto; cbv beta; wp_simpl. repeat split. apply last_last.
Qed.

Lemma X17_invalid_option_witness :
  snd (main_body sample_env (sample_world ["deposit"; "8"])) = inr false /\
  stdin (fst (main_body sample_env (sample_world ["deposit"; "8"]))) = ["8"].
Proof.
  assert (Hc : ~ In "deposit" ["1"; "2"; "3"; "4"; "5"; "6"; "7"; "8"]).
  { cbn [In]. intros H. repeat (destruct H as [H | H]; [discriminate H |]). exact H. }
  destruct (X17_invalid_option sample_env (sample_world ["deposit"; "8"])
              "deposit" ["8"] eq_refl Hc) as (Hr & Hs & _).
  split; [exact Hr | exact Hs].
Defined.

(** X18. A line that [float] rejects where a balance is asked ends
    [main] with the ValueError of [float]; no account is created. *)
Theorem X18_bad_number_ends_main :
  forall (env : Builtins) (fuel : nat) (w : World) (choice owner bal : string)
         (rest : list string),
    stdin w = choice :: owner :: bal :: rest ->
    choice = "1" \/ choice = "2" ->
    py_float env bal = None ->
    snd (main_loop env (S fuel) w)
    = Stopped (Uncaught (ValueError (py_float_error env bal))) /\
    accounts (fst (main_loop env (S fuel) w)) = accounts w.
Proof.
  intros env fuel w choice owner bal rest Hin Hc Hfl.
  assert (Hb : wp (main_body env)
                  (fun w' r =>
                     r = inl (Uncaught (ValueError (py_float_error env bal))) /\
                     accounts w' = accounts w) w).
  { apply wp_main_body. intros w1 _. rewrite Hin.
    destruct Hc as [-> | ->]; [choice_cases env "1" | choice_cases env "2"];
      try wrong_choice; wp_auto; cbv beta; wp_simpl; try congruence;
      split; reflexivity. }
  unfold wp in Hb. cbn [main_loop].
  destruct (main_body env w) as [w' r]. cbn [fst snd] in Hb.
  destruct Hb as (-> & Ha). cbn [fst snd]. auto.
Qed.

Lemma X18_bad_number_ends_main_witness :
  snd (main_loop sample_env 1 (sample_world ["1"; "Bob"; "ten"; "8"]))
  = Stopped (Uncaught (ValueError "ten")).
Proof.
  destruct (X18_bad_number_ends_main sample_env 0
              (sample_world ["1"; "Bob"; "ten"; "8"]) "1" "Bob" "ten" ["8"]
              eq_refl (or_introl eq_refl) eq_refl) as (Hend & _).
  exact Hend.
Defined.

(** X19. A turn of the loop touches no account but the one named on the
    line after the choice: every other entry of the dict is after the
    turn what it was before, however the turn ends. *)
Theorem X19_turn_touches_one_account :
  forall (env : Builtins) (w : World) (k : string),
    nth_error (stdin w) 1 <> Some k ->
    accounts (fst (main_body env w)) k = accounts w k.
Proof.
  intros env w k Hk.
  change (wp (main_body env) (fun w' _ => accounts w' k = accounts w k) w).
  apply wp_main_body. intros w1 _.
  destruct (stdin w) as [| choice rest]; [reflexivity |].
  cbn [nth_error] in Hk.
  choice_cases env choice; wp_auto; cbv beta; wp_simpl; try reflexivity;
    apply dict_set_other; intros ->; apply Hk; reflexivity.
Qed.

Lemma X19_turn_touches_one_account_witness :
  accounts (fst (main_body sample_env (sample_world ["1"; "Bob"; "50"]))) "Alice"
  = Some (SavingsObj alice).
Proof.
  assert (Hk : nth_error (stdin (sample_world ["1"; "Bob"; "50"])) 1 <> Some "Alice")
    by (intros H; discriminate H).
  exact (X19_turn_touches_one_account sample_env (sample_world ["1"; "Bob"; "50"])
           "Alice" Hk).
Defined.

(** X20. Options 5 and 6 only look: whether or not the account exists,
    the turn raises nothing, leaves every account and the clock as they
    were, and the loop goes on; for option 5 on an account of the dict,
    the last thing written is the stored balance with two decimals. *)
Theorem X20_views_change_nothing :
  forall (env : Builtins) (w : World) (choice owner : string) (rest : list string),
    stdin w = choice :: owner :: rest ->
    choice = "5" \/ choice = "6" ->
    snd (main_body env w) = inr false /\
    stdin (fst (main_body env w)) = rest /\
    (forall k, accounts (fst (main_body env w)) k = accounts w k) /\
    clock_reads (fst (main_body env w)) = clock_reads w /\
    (forall acct, choice = "5" -> accounts w owner = Some acct ->
       last (stdout (fst (main_body env w))) (Prompt "")
       = Printed [Lit "Balance: "; Fmt2f (balance (base acct))]).
Proof.
  intros env w choice owner rest Hin Hc.
  change (wp (main_body env)
            (fun w' r =>
               r = inr false /\ stdin w' = rest /\
               (forall k, accounts w' k = accounts w k) /\
               clock_reads w' = clock_reads w /\
               (forall acct, choice = "5" -> accounts w owner = Some acct ->
                  last (stdout w') (Prompt "")
                  = Printed [Lit "Balance: "; Fmt2f (balance (base acct))])) w).
  apply wp_main_body. intros w1 _. rewrite Hin.
  destruct Hc as [-> | ->]; [choice_cases env "5" | choice_cases env "6"];
    try wrong_choice; wp_auto; cbv beta; wp_simpl;
    try match goal with
        | H : result (perform GetTransactionHistory ?n ?a) = inl _ |- _ =>
            destruct (perform_query GetTransactionHistory n a eq_refl) as [_ Hok];
            unfold succeeded in Hok; rewrite H in Hok; discriminate Hok
        end;
    try match goal with
        | |- context [perform GetTransactionHistory ?n ?a] =>
            destruct (perform_query GetTransactionHistory n a eq_refl) as [Hfin _];
            rewrite Hfin
        end;
    cbn [andb Nat.add];
    repeat split; try (rewrite Nat.add_0_r; reflexivity);
    try (intros k; apply dict_set_stored; assumption);
    try (intros acct' Hc' Ha'; try discriminate Hc';
         first [ congruence
               | assert (acct' = a) by congruence; subst; apply last_last ]).
Qed.

Lemma X20_views_change_nothing_witness :
  snd (main_body sample_env (sample_world ["5"; "Alice"; "8"])) = inr false /\
  last (stdout (fst (main_body sample_env (sample_world ["5"; "Alice"; "8"])))) (Prompt "")
  = Printed [Lit "Balance: "; Fmt2f 100].
Proof.
  destruct (X20_views_change_nothing sample_env (sample_world ["5"; "Alice"; "8"])
              "5" "Alice" ["8"] eq_refl (or_introl eq_refl))
    as (Hr & _ & _ & _ & Hb).
  split; [exact Hr | exact (Hb (SavingsObj alice) eq_refl eq_refl)].
Defined.
